(** * Cluster core of restreamer-core: replicated store, file index,
      leadership sentinel, membership and peer metrics

    A shallow embedding of the Go sources and the properties proved about
    them.  Maps are stdpp's [gmap]; Go's [time.Time] and [time.Duration] are
    integers counting nanoseconds; [float64] is Rocq's primitive binary64.
    Logging is not modelled: it has no effect on the state or on results. *)

From Stdlib Require Import ZArith List String Bool Floats.
From stdpp Require Import base gmap strings pretty list fin_maps.

Local Open Scope string_scope.
Local Open Scope list_scope.
Local Open Scope Z_scope.

(** Two closed terms differ: compute them and compare. *)
Ltac differ :=
  let E := fresh "E" in intros E; vm_compute in E; discriminate E.

(** ** Time

    [time.Time] is an instant, counted in nanoseconds from the zero Time
    ([time.Time{}]); [time.Duration] is an int64 count of nanoseconds.
    [Time.Sub] saturates at the bounds of int64, as package time does. *)
Module GoTime.

Definition Time := Z.
Definition Duration := Z.

Definition zero : Time := 0.

Definition Nanosecond : Duration := 1.
Definition Millisecond : Duration := 1000000.
Definition Second : Duration := 1000000000.

Definition minDuration : Duration := - 2 ^ 63.
Definition maxDuration : Duration := 2 ^ 63 - 1.

(** [t.Sub(u)] *)
Definition Sub (t u : Time) : Duration :=
  if t - u <? minDuration then minDuration
  else if maxDuration <? t - u then maxDuration
  else t - u.

(** [time.Since(t)], with the reading of the clock passed in *)
Definition Since (now t : Time) : Duration := Sub now t.

(** [t.Add(d)] *)
Definition Add (t : Time) (d : Duration) : Time := t + d.

(** [t.Before(u)] *)
Definition Before (t u : Time) : bool := t <? u.

End GoTime.

(** ** The replicated store (package store)

    The types of packages app, identity and access are not part of the
    sources at hand.  They enter as an interface: the store touches a config
    only through [ProcessID().String()] and [Hash()], and an identity only
    through its [Name]. *)
Module Store.
Import GoTime.

(** Decidable equality of bytes, for [bytes.Equal]. *)
#[global] Instance byte_eq_dec : EqDecision Byte.byte.
Proof.
  intros x y. destruct (Byte.eqb x y) eqn:E.
  - left. apply Byte.byte_dec_bl, E.
  - right. intros Heq. apply Byte.byte_dec_lb in Heq. congruence.
Defined.

Class App := {
  (** [*app.Config] *)
  app_Config : Type;
  (** [app.ProcessID] *)
  app_ProcessID : Type;
  (** [config.ProcessID()] *)
  Config_ProcessID : app_Config -> app_ProcessID;
  (** [id.String()] *)
  ProcessID_String : app_ProcessID -> string;
  (** [config.Hash()] *)
  Config_Hash : app_Config -> list Byte.byte;
  (** a non-nil [interface{}] holding decoded JSON *)
  Value : Type;
  (** [identity.User] and its field [Name] *)
  identity_User : Type;
  User_Name : identity_User -> string;
  (** [access.Policy] *)
  access_Policy : Type;
}.

Section StoreDefs.
Context `{App}.

(** [StoreError]: an error that is its own message. *)
Definition StoreError := string.

Record Process := {
  CreatedAt : Time;
  UpdatedAt : Time;
  Config : app_Config;
  (** [None] is the nil map *)
  Metadata : option (gmap string Value);
}.

Definition Operation := string.

Definition OpAddProcess : Operation := "addProcess".
Definition OpRemoveProcess : Operation := "removeProcess".
Definition OpUpdateProcess : Operation := "updateProcess".
Definition OpSetProcessMetadata : Operation := "setProcessMetadata".
Definition OpAddIdentity : Operation := "addIdentity".
Definition OpUpdateIdentity : Operation := "updateIdentity".
Definition OpRemoveIdentity : Operation := "removeIdentity".
Definition OpSetPolicies : Operation := "setPolicies".

(** [Data interface{}]: [None] is nil (JSON null). *)
Record Command := {
  Operation_ : Operation;
  Data : option Value;
}.

Record CommandAddProcess := { AddProcess_Config : app_Config }.

Record CommandUpdateProcess := {
  UpdateProcess_ID : app_ProcessID;
  UpdateProcess_Config : app_Config;
}.

Record CommandRemoveProcess := { RemoveProcess_ID : app_ProcessID }.

Record CommandSetProcessMetadata := {
  SetProcessMetadata_ID : app_ProcessID;
  SetProcessMetadata_Key : string;
  SetProcessMetadata_Data : option Value;
}.

Record CommandAddIdentity := { AddIdentity_Identity : identity_User }.

Record CommandUpdateIdentity := {
  UpdateIdentity_Name : string;
  UpdateIdentity_Identity : identity_User;
}.

Record CommandRemoveIdentity := { RemoveIdentity_Name : string }.

Record CommandSetPolicies := {
  SetPolicies_Name : string;
  SetPolicies_Policies : list access_Policy;
}.

Record StoreUsers := {
  Users_UpdatedAt : Time;
  Users_Users : gmap string identity_User;
}.

Record StorePolicies := {
  Policies_UpdatedAt : Time;
  Policies_Policies : gmap string (list access_Policy);
}.

(** The FSM.  [callback] records whether [OnApply] installed a function. *)
Record store := {
  store_Process : gmap string Process;
  store_Users : StoreUsers;
  store_Policies : StorePolicies;
  callback : bool;
}.

Definition NewStore : store :=
  {| store_Process := ∅;
     store_Users := {| Users_UpdatedAt := zero; Users_Users := ∅ |};
     store_Policies := {| Policies_UpdatedAt := zero; Policies_Policies := ∅ |};
     callback := false |}.

Definition set_Process (s : store) (m : gmap string Process) : store :=
  {| store_Process := m;
     store_Users := store_Users s;
     store_Policies := store_Policies s;
     callback := callback s |}.

Definition set_Users (s : store) (u : StoreUsers) : store :=
  {| store_Process := store_Process s;
     store_Users := u;
     store_Policies := store_Policies s;
     callback := callback s |}.

Definition set_Policies (s : store) (p : StorePolicies) : store :=
  {| store_Process := store_Process s;
     store_Users := store_Users s;
     store_Policies := p;
     callback := callback s |}.

(** The messages of the errors the operations return. *)
Definition errProcessExists (id : string) : StoreError :=
  "the process with the ID '" +:+ id +:+ "' already exists".

Definition errProcessDoesntExist (id : string) : StoreError :=
  "the process with the ID '" +:+ id +:+ "' doesn't exist".

Definition errProcessDoesntExists (id : string) : StoreError :=
  "the process with the ID '" +:+ id +:+ "' doesn't exists".

Definition errIdentityExists (name : string) : StoreError :=
  "the identity with the name '" +:+ name +:+ "' already exists".

Definition errInvalidLogEntry (index term : N) : StoreError :=
  "invalid log entry, index: " +:+ pretty index +:+ ", term: " +:+ pretty term.

(** Every operation returns its error ([None] is nil) and the store it
    leaves. *)
Definition addProcess (now : Time) (cmd : CommandAddProcess) (s : store)
  : option StoreError * store :=
  let id := ProcessID_String (Config_ProcessID (AddProcess_Config cmd)) in
  match store_Process s !! id with
  | Some _ => (Some (errProcessExists id), s)
  | None =>
      (None,
       set_Process s
         (<[id := {| CreatedAt := now;
                     UpdatedAt := now;
                     Config := AddProcess_Config cmd;
                     Metadata := Some ∅ |}]> (store_Process s)))
  end.

Definition removeProcess (cmd : CommandRemoveProcess) (s : store)
  : option StoreError * store :=
  let id := ProcessID_String (RemoveProcess_ID cmd) in
  match store_Process s !! id with
  | None => (Some (errProcessDoesntExist id), s)
  | Some _ => (None, set_Process s (delete id (store_Process s)))
  end.

Definition updateProcess (now : Time) (cmd : CommandUpdateProcess) (s : store)
  : option StoreError * store :=
  let srcid := ProcessID_String (UpdateProcess_ID cmd) in
  let dstid := ProcessID_String (Config_ProcessID (UpdateProcess_Config cmd)) in
  match store_Process s !! srcid with
  | None => (Some (errProcessDoesntExists srcid), s)
  | Some p =>
      let currentHash := Config_Hash (Config p) in
      let replaceHash := Config_Hash (UpdateProcess_Config cmd) in
      if bool_decide (currentHash = replaceHash) then (None, s)
      else if bool_decide (srcid = dstid) then
        (None,
         set_Process s
           (<[srcid := {| CreatedAt := zero;
                          UpdatedAt := now;
                          Config := UpdateProcess_Config cmd;
                          Metadata := None |}]> (store_Process s)))
      else
        match store_Process s !! dstid with
        | Some _ => (Some (errProcessExists dstid), s)
        | None =>
            (None,
             set_Process s
               (<[dstid := {| CreatedAt := zero;
                              UpdatedAt := now;
                              Config := UpdateProcess_Config cmd;
                              Metadata := None |}]>
                  (delete srcid (store_Process s))))
        end
  end.

Definition setProcessMetadata (now : Time) (cmd : CommandSetProcessMetadata)
    (s : store) : option StoreError * store :=
  let id := ProcessID_String (SetProcessMetadata_ID cmd) in
  match store_Process s !! id with
  | None => (Some (errProcessDoesntExists id), s)
  | Some p =>
      let md := match Metadata p with Some m => m | None => ∅ end in
      let md' := match SetProcessMetadata_Data cmd with
                 | None => delete (SetProcessMetadata_Key cmd) md
                 | Some v => <[SetProcessMetadata_Key cmd := v]> md
                 end in
      (None,
       set_Process s
         (<[id := {| CreatedAt := CreatedAt p;
                     UpdatedAt := now;
                     Config := Config p;
                     Metadata := Some md' |}]> (store_Process s)))
  end.

Definition addIdentity (now : Time) (cmd : CommandAddIdentity) (s : store)
  : option StoreError * store :=
  let name := User_Name (AddIdentity_Identity cmd) in
  match Users_Users (store_Users s) !! name with
  | Some _ => (Some (errIdentityExists name), s)
  | None =>
      (None,
       set_Users s
         {| Users_UpdatedAt := now;
            Users_Users :=
              <[name := AddIdentity_Identity cmd]> (Users_Users (store_Users s)) |})
  end.

Definition updateIdentity (now : Time) (cmd : CommandUpdateIdentity) (s : store)
  : option StoreError * store :=
  let name := User_Name (UpdateIdentity_Identity cmd) in
  let put :=
    set_Users s
      {| Users_UpdatedAt := now;
         Users_Users :=
           <[name := UpdateIdentity_Identity cmd]> (Users_Users (store_Users s)) |} in
  match Users_Users (store_Users s) !! UpdateIdentity_Name cmd with
  | None => (None, s)
  | Some _ =>
      if bool_decide (UpdateIdentity_Name cmd = name) then (None, put)
      else
        match Users_Users (store_Users s) !! name with
        | None => (None, put)
        | Some _ => (Some (errIdentityExists name), s)
        end
  end.

(** The clock is read twice, once for each table. *)
Definition removeIdentity (now1 now2 : Time) (cmd : CommandRemoveIdentity)
    (s : store) : option StoreError * store :=
  let s1 :=
    set_Users s
      {| Users_UpdatedAt := now1;
         Users_Users := delete (RemoveIdentity_Name cmd) (Users_Users (store_Users s)) |} in
  (None,
   set_Policies s1
     {| Policies_UpdatedAt := now2;
        Policies_Policies :=
          delete (RemoveIdentity_Name cmd) (Policies_Policies (store_Policies s)) |}).

Definition setPolicies (now : Time) (cmd : CommandSetPolicies) (s : store)
  : option StoreError * store :=
  (None,
   set_Policies s
     {| Policies_UpdatedAt := now;
        Policies_Policies :=
          <[SetPolicies_Name cmd := SetPolicies_Policies cmd]>
            (delete (SetPolicies_Name cmd) (Policies_Policies (store_Policies s))) |}).

Definition OnApply (installed : bool) (s : store) : store :=
  {| store_Process := store_Process s;
     store_Users := store_Users s;
     store_Policies := store_Policies s;
     callback := installed |}.

(** The record [updateProcess] writes: only [UpdatedAt] and [Config] are
    set, the other fields have their zero values. *)
Definition replacement (now : Time) (cmd : CommandUpdateProcess) : Process :=
  {| CreatedAt := zero;
     UpdatedAt := now;
     Config := UpdateProcess_Config cmd;
     Metadata := None |}.

(** Every key of the process map is the id of the config stored under it. *)
Definition keyed (s : store) : Prop :=
  forall k p, store_Process s !! k = Some p ->
    ProcessID_String (Config_ProcessID (Config p)) = k.

(** The hash of a config fixes its process id. *)
Definition hashCoversID : Prop :=
  forall c c' : app_Config,
    Config_Hash c = Config_Hash c' ->
    ProcessID_String (Config_ProcessID c) = ProcessID_String (Config_ProcessID c').

End StoreDefs.

(** [raft.Log], as far as [Apply] reads it. *)
Record Log := {
  Index : N;
  Term : N;
  Log_Data : list Byte.byte;
}.

(** Package encoding/json, as [Apply] uses it.  [Unmarshal_Command] is
    [json.Unmarshal(entry.Data, &c)], [None] when it fails.  Each [as_...] is
    the re-encoding of [c.Data] decoded into the struct of the operation
    ([json.Marshal(c.Data)] then [json.Unmarshal(b, &cmd)]): both errors are
    dropped by the source, so the result is whatever the decoder left in
    [cmd]. *)
Class Codec `{App} := {
  Unmarshal_Command : list Byte.byte -> option Command;
  as_CommandAddProcess : option Value -> CommandAddProcess;
  as_CommandRemoveProcess : option Value -> CommandRemoveProcess;
  as_CommandUpdateProcess : option Value -> CommandUpdateProcess;
  as_CommandSetProcessMetadata : option Value -> CommandSetProcessMetadata;
  as_CommandAddIdentity : option Value -> CommandAddIdentity;
  as_CommandUpdateIdentity : option Value -> CommandUpdateIdentity;
  as_CommandRemoveIdentity : option Value -> CommandRemoveIdentity;
  as_CommandSetPolicies : option Value -> CommandSetPolicies;
}.

Section StoreFSM.
Context `{Codec}.

(** What a call of [Apply] produces: the value it returns ([None] is nil),
    the store it leaves, and the operation handed to the [OnApply] callback
    when the callback ran. *)
Record Applied := {
  ret : option StoreError;
  st : store;
  notified : option Operation;
}.

Definition unchanged (s : store) (r : option StoreError) : Applied :=
  {| ret := r; st := s; notified := None |}.

(** The end of [Apply], after the switch has run an operation. *)
Definition finish (op : Operation) (r : option StoreError * store) : Applied :=
  match r.1 with
  | Some err => {| ret := Some err; st := r.2; notified := None |}
  | None =>
      {| ret := None;
         st := r.2;
         notified := if callback r.2 then Some op else None |}
  end.

(** [clock k] is the [k]-th reading of [time.Now()] during the call. *)
Definition Apply (clock : nat -> Time) (entry : Log) (s : store) : Applied :=
  match Unmarshal_Command (Log_Data entry) with
  | None => unchanged s (Some (errInvalidLogEntry (Index entry) (Term entry)))
  | Some c =>
      let op := Operation_ c in
      if bool_decide (op = OpAddProcess) then
        finish op (addProcess (clock 0%nat) (as_CommandAddProcess (Data c)) s)
      else if bool_decide (op = OpRemoveProcess) then
        finish op (removeProcess (as_CommandRemoveProcess (Data c)) s)
      else if bool_decide (op = OpUpdateProcess) then
        finish op (updateProcess (clock 0%nat) (as_CommandUpdateProcess (Data c)) s)
      else if bool_decide (op = OpSetProcessMetadata) then
        finish op
          (setProcessMetadata (clock 0%nat) (as_CommandSetProcessMetadata (Data c)) s)
      else if bool_decide (op = OpAddIdentity) then
        finish op (addIdentity (clock 0%nat) (as_CommandAddIdentity (Data c)) s)
      else if bool_decide (op = OpUpdateIdentity) then
        finish op (updateIdentity (clock 0%nat) (as_CommandUpdateIdentity (Data c)) s)
      else if bool_decide (op = OpRemoveIdentity) then
        finish op
          (removeIdentity (clock 0%nat) (clock 1%nat)
             (as_CommandRemoveIdentity (Data c)) s)
      else if bool_decide (op = OpSetPolicies) then
        finish op (setPolicies (clock 0%nat) (as_CommandSetPolicies (Data c)) s)
      else unchanged s None
  end.

(** The operations the specification lists for the command envelope. *)
Definition closedOperations : list Operation :=
  [ "addProcess"; "removeProcess"; "updateProcess"; "setProcessMetadata";
    "addIdentity"; "updateIdentity"; "removeIdentity"; "setPolicies";
    "addNode"; "removeNode"; "setNodeState"; "setKV"; "delKV";
    "acquireLock"; "releaseLock" ].

(** *** Snapshot and Restore

    [json.Marshal(s)] writes the exported fields of the store: Process, Users
    and Policies.  A [Document] is that JSON document, with every value
    standing for its own JSON text; a nil metadata map is written as null and
    read back as nil. *)
Record Document := {
  doc_Process : gmap string Process;
  doc_Users : StoreUsers;
  doc_Policies : StorePolicies;
}.

(** The canonical JSON of a store. *)
Definition canonicalJSON (s : store) : Document :=
  {| doc_Process := store_Process s;
     doc_Users := store_Users s;
     doc_Policies := store_Policies s |}.

Definition Snapshot (s : store) : Document := canonicalJSON s.

(** The loop of [Restore] over a process: a nil metadata map becomes an
    empty one. *)
Definition normalize (p : Process) : Process :=
  match Metadata p with
  | Some _ => p
  | None =>
      {| CreatedAt := CreatedAt p;
         UpdatedAt := UpdatedAt p;
         Config := Config p;
         Metadata := Some ∅ |}
  end.

(** [dec.Decode(s)] decodes into the store itself.  Decoding a JSON object
    into a map that is not nil reuses the map and keeps the entries whose
    keys the object does not have; a key of the object gets a freshly
    decoded value; a struct field is overwritten.  The union is left-biased:
    [m1 ∪ m2] looks a key up in [m1] first. *)
Definition Decode (doc : Document) (s : store) : store :=
  {| store_Process := doc_Process doc ∪ store_Process s;
     store_Users :=
       {| Users_UpdatedAt := Users_UpdatedAt (doc_Users doc);
          Users_Users :=
            Users_Users (doc_Users doc) ∪ Users_Users (store_Users s) |};
     store_Policies :=
       {| Policies_UpdatedAt := Policies_UpdatedAt (doc_Policies doc);
          Policies_Policies :=
            Policies_Policies (doc_Policies doc)
              ∪ Policies_Policies (store_Policies s) |};
     callback := callback s |}.

(** [Restore] on a snapshot that decodes: the decoder returns nil, the loop
    over the processes runs and the call returns nil.  The call with the
    error of the decoder is [StoreRestore.Restore]. *)
Definition Restore (snapshot : Document) (s : store) : store :=
  let s' := Decode snapshot s in
  set_Process s' (normalize <$> store_Process s').

(** The canonical JSON with nil metadata maps read as empty ones. *)
Definition normalizeDocument (d : Document) : Document :=
  {| doc_Process := normalize <$> doc_Process d;
     doc_Users := doc_Users d;
     doc_Policies := doc_Policies d |}.

End StoreFSM.
End Store.

(** ** The cluster coordinator (package cluster) *)
Module Cluster.
Import GoTime.

(** Go's [error], by its message; [None] is nil. *)
Definition error := string.

(** *** The file index: the goroutine consuming node updates, and GetURL *)

(** An update a node sends on the [updates] channel. *)
Record NodeState := {
  ID : string;
  State : string;
  Files : list string;
  LastUpdate : Time;
}.

Section FileIndex.
(** [*node]; [getURL n path] is [n.getURL(path)], [None] when it returns an
    error. *)
Variable node : Type.
Variable getURL : node -> string -> option string.

Record cluster := {
  nodes : gmap string node;
  idfiles : gmap string (list string);
  idupdate : gmap string Time;
  fileid : gmap string string;
}.

(** [for _, file := range files { delete(c.fileid, file) }] *)
Definition deleteFiles (files : list string) (m : gmap string string)
  : gmap string string :=
  foldl (fun m file => delete file m) m files.

(** [for _, file := range state.Files { c.fileid[file] = state.ID }] *)
Definition addFiles (id : string) (files : list string) (m : gmap string string)
  : gmap string string :=
  foldl (fun m file => <[file := id]> m) m files.

(** The body of the loop for one update received on [c.updates].  A key
    missing from [c.idfiles] reads as the nil slice. *)
Definition update (state : NodeState) (c : cluster) : cluster :=
  let files := default [] (idfiles c !! ID state) in
  let fileid1 := deleteFiles files (fileid c) in
  let idfiles1 := delete (ID state) (idfiles c) in
  let idupdate1 := delete (ID state) (idupdate c) in
  if bool_decide (State state = "connected") then
    {| nodes := nodes c;
       idfiles := <[ID state := files]> idfiles1;
       idupdate := <[ID state := LastUpdate state]> idupdate1;
       fileid := addFiles (ID state) (Files state) fileid1 |}
  else
    {| nodes := nodes c;
       idfiles := idfiles1;
       idupdate := idupdate1;
       fileid := fileid1 |}.

(** The goroutine over the updates it receives, in order. *)
Definition consume (states : list NodeState) (c : cluster) : cluster :=
  foldl (fun c state => update state c) c states.

Definition errFileNotFound : error := "file not found".

(** [GetURL] returns the pair (url, err). *)
Definition GetURL (now : Time) (path : string) (c : cluster)
  : string * option error :=
  match fileid c !! path with
  | None => ("", Some errFileNotFound)
  | Some id =>
      match idupdate c !! id with
      | None => ("", Some errFileNotFound)
      | Some ts =>
          if 2 * Second <? Since now ts then ("", Some errFileNotFound)
          else
            match nodes c !! id with
            | None => ("", Some errFileNotFound)
            | Some n =>
                match getURL n path with
                | None => ("", Some errFileNotFound)
                | Some url => (url, None)
                end
            end
      end
  end.

(** No list of the node-to-files map holds a file. *)
Definition listsEmpty (c : cluster) : Prop :=
  forall id files, idfiles c !! id = Some files -> files = [].

End FileIndex.

Arguments nodes {node} _.
Arguments idfiles {node} _.
Arguments idupdate {node} _.
Arguments fileid {node} _.
Arguments update {node} state c.
Arguments consume {node} states c.
Arguments GetURL {node} getURL now path c.
Arguments listsEmpty {node} c.

(** *** The emergency-leader sentinel *)
Section Sentinel.
(** [time.ParseDuration], [None] when it returns an error. *)
Variable ParseDuration : string -> option Duration.

(** The local variables of [sentinel] that live across ticks. *)
Record sentinelState := {
  start : Time;
  lastContactSince : Duration;
  isEmergencyLeader : bool;
}.

(** The state when the loop is entered, [now] being the reading of the
    clock for [start]. *)
Definition sentinelStart (now : Time) : sentinelState :=
  {| start := now; lastContactSince := 0; isEmergencyLeader := false |}.

(** One tick: [stats] is [c.raft.Stats()], [now] the clock during the tick.
    The second component is the value sent on [raftEmergencyNotifyCh], if
    any: [true] forces leadership, [false] releases it. *)
Definition sentinelTick (now : Time) (stats : gmap string string)
    (s : sentinelState) : sentinelState * option bool :=
  let lastContact := default "" (stats !! "last_contact") in
  let '(since, start') :=
    if bool_decide (lastContact = "never") then (Since now (start s), start s)
    else
      match ParseDuration lastContact with
      | Some d => (d, now)
      | None => (Since now (start s), start s)
      end in
  if (10 * Second <? since) && negb (isEmergencyLeader s) then
    ({| start := start'; lastContactSince := since; isEmergencyLeader := true |},
     Some true)
  else if (since <=? 10 * Second) && isEmergencyLeader s then
    ({| start := start'; lastContactSince := since; isEmergencyLeader := false |},
     Some false)
  else
    ({| start := start'; lastContactSince := since;
        isEmergencyLeader := isEmergencyLeader s |},
     None).

(** The loop over a list of ticks; the signals sent, in order. *)
Fixpoint sentinelRun (ticks : list (Time * gmap string string))
    (s : sentinelState) : sentinelState * list bool :=
  match ticks with
  | [] => (s, [])
  | (now, stats) :: rest =>
      let '(s1, sig) := sentinelTick now stats s in
      let '(s2, sigs) := sentinelRun rest s1 in
      (s2, match sig with Some b => b :: sigs | None => sigs end)
  end.

(** No two neighbours of the list are equal. *)
Fixpoint alternating (l : list bool) : Prop :=
  match l with
  | a :: (b :: _) as tl => a <> b /\ alternating tl
  | _ => True
  end.

(** The first element of a list, if there is one, is [b]. *)
Definition firstIs (b : bool) (l : list bool) : Prop :=
  match l with
  | [] => True
  | x :: _ => x = b
  end.

End Sentinel.

(** *** Mutations, membership and the calls they make *)
Section Coordinator.
Context `{Store.App}.
Import Store.

(** The data of a command handed to raft. *)
Inductive CommandData :=
| DataAddIdentity (identity : identity_User)
| DataUpdateIdentity (name : string) (identity : identity_User)
| DataSetPolicies (name : string) (policies : list access_Policy)
| DataRemoveIdentity (name : string)
| DataAddProcess (config : option app_Config)
| DataSetNodeState (nodeID state : string)
| DataAddNode (id address username password : string)
| DataRemoveNode (id : string).

Record RaftCommand := {
  cmd_Operation : string;
  cmd_Data : CommandData;
}.

(** Modelled from the spec: the constants [opAddNode], [opRemoveNode] and
    [store.OpSetNodeState], whose declarations are not part of the sources;
    the command envelope of the specification names the operations. *)
Definition opAddNode : string := "addNode".
Definition opRemoveNode : string := "removeNode".
Definition OpSetNodeState : string := "setNodeState".

(** A call of the forwarder, with its arguments. *)
Inductive ForwardCall :=
| FwdAddIdentity (origin : string) (identity : identity_User)
| FwdUpdateIdentity (origin name : string) (identity : identity_User)
| FwdSetPolicies (origin name : string) (policies : list access_Policy)
| FwdRemoveIdentity (origin name : string)
| FwdAddProcess
| FwdSetNodeState (origin id state : string)
| FwdLeave (origin id : string).

(** [raft.Server], without its suffrage. *)
Record Server := {
  Server_ID : string;
  Server_Address : string;
}.

(** What a call does to the world outside the coordinator, in order. *)
Inductive Event :=
| EvForward (call : ForwardCall)
| EvRaftApply (cmd : RaftCommand)
| EvGetConfiguration
| EvLeadershipTransfer
| EvRemoveServer (id : string)
| EvSleep (d : Duration).

(** The world a call runs in.  What other goroutines and raft change while
    the call runs is read at the number of events the call has made so far:
    the leader flags, the clock and the raft configuration.  [None] is the
    nil error. *)
Record Env := {
  IsDegraded : bool;
  IsRaftLeader : nat -> bool;
  hasRaftLeader : nat -> bool;
  Now : nat -> Time;
  Validate : identity_User -> option error;
  forward : ForwardCall -> option error;
  json_Marshal : RaftCommand -> option error;
  raft_Apply : RaftCommand -> option error;
  raft_GetConfiguration : nat -> error + list Server;
  raft_RemoveServer : string -> option error;
  leadershipTransfer : option error;
}.

(** The fields of [cluster] these calls read. *)
Record coordinator := {
  id : string;
  raftAddress : string;
  raftRemoveGracePeriod : Duration;
}.

(** [ErrDegraded]: its declaration is not part of the sources. *)
Variable ErrDegraded : error.

Variable env : Env.

Definition applyCommand (cmd : RaftCommand) : option error * list Event :=
  match json_Marshal env cmd with
  | Some err => (Some err, [])
  | None =>
      match raft_Apply env cmd with
      | Some err => (Some ("applying command failed: " +:+ err), [EvRaftApply cmd])
      | None => (None, [EvRaftApply cmd])
      end
  end.

Definition AddIdentity (origin : string) (identity : identity_User)
  : option error * list Event :=
  if IsDegraded env then (Some ErrDegraded, [])
  else
    match Validate env identity with
    | Some err => (Some ("invalid identity: " +:+ err), [])
    | None =>
        if negb (IsRaftLeader env 0%nat) then
          (forward env (FwdAddIdentity origin identity),
           [EvForward (FwdAddIdentity origin identity)])
        else
          applyCommand
            {| cmd_Operation := OpAddIdentity; cmd_Data := DataAddIdentity identity |}
    end.

Definition UpdateIdentity (origin name : string) (identity : identity_User)
  : option error * list Event :=
  if IsDegraded env then (Some ErrDegraded, [])
  else if negb (IsRaftLeader env 0%nat) then
    (forward env (FwdUpdateIdentity origin name identity),
     [EvForward (FwdUpdateIdentity origin name identity)])
  else
    applyCommand
      {| cmd_Operation := OpUpdateIdentity;
         cmd_Data := DataUpdateIdentity name identity |}.

Definition SetPolicies (origin name : string) (policies : list access_Policy)
  : option error * list Event :=
  if IsDegraded env then (Some ErrDegraded, [])
  else if negb (IsRaftLeader env 0%nat) then
    (forward env (FwdSetPolicies origin name policies),
     [EvForward (FwdSetPolicies origin name policies)])
  else
    applyCommand
      {| cmd_Operation := OpSetPolicies;
         cmd_Data := DataSetPolicies name policies |}.

Definition RemoveIdentity (origin name : string) : option error * list Event :=
  if IsDegraded env then (Some ErrDegraded, [])
  else if negb (IsRaftLeader env 0%nat) then
    (forward env (FwdRemoveIdentity origin name),
     [EvForward (FwdRemoveIdentity origin name)])
  else
    applyCommand
      {| cmd_Operation := OpRemoveIdentity; cmd_Data := DataRemoveIdentity name |}.

(** [AddProcess] of cluster.go: the config it is given is not used, the
    command carries a nil config. *)
Definition AddProcess (config : app_Config) : option error * list Event :=
  if negb (IsRaftLeader env 0%nat) then
    (forward env FwdAddProcess, [EvForward FwdAddProcess])
  else
    applyCommand
      {| cmd_Operation := "addProcess"; cmd_Data := DataAddProcess None |}.

Definition ErrUnsupportedNodeState : error := "unsupported node state".

Definition SetNodeState (origin id state : string) : option error * list Event :=
  if bool_decide (state = "online") || bool_decide (state = "maintenance")
     || bool_decide (state = "leave") then
    if negb (IsRaftLeader env 0%nat) then
      (forward env (FwdSetNodeState origin id state),
       [EvForward (FwdSetNodeState origin id state)])
    else
      applyCommand
        {| cmd_Operation := OpSetNodeState; cmd_Data := DataSetNodeState id state |}
  else (Some ErrUnsupportedNodeState, []).

(** [RemoveNode], called after [k] events. *)
Definition RemoveNode (k : nat) (id : string) : option error * list Event :=
  if negb (IsRaftLeader env k) then (Some "not leader", [])
  else
    applyCommand {| cmd_Operation := opRemoveNode; cmd_Data := DataRemoveNode id |}.

(** The loop that waits for the local address to leave the configuration:
    [for !left && time.Now().Before(limit)].  [tr] is the trace so far; the
    result is [left] and the trace.  [None]: the fuel ran out. *)
Fixpoint waitRemoved (fuel : nat) (c : coordinator) (limit : Time)
    (tr : list Event) : option (bool * list Event) :=
  match fuel with
  | O => None
  | S fuel' =>
      if Before (Now env (List.length tr)) limit then
        let tr1 := tr ++ [EvSleep (50 * Millisecond)] in
        let tr2 := tr1 ++ [EvGetConfiguration] in
        match raft_GetConfiguration env (List.length tr1) with
        | inl _ => Some (false, tr2)
        | inr servers =>
            if existsb (fun srv => bool_decide (Server_Address srv = raftAddress c))
                 servers
            then waitRemoved fuel' c limit tr2
            else Some (true, tr2)
        end
      else Some (false, tr)
  end.

(** The loop that waits until a leader is known. *)
Fixpoint waitLeader (fuel : nat) (tr : list Event) : option (list Event) :=
  match fuel with
  | O => None
  | S fuel' =>
      let tr1 := tr ++ [EvSleep (50 * Millisecond)] in
      if hasRaftLeader env (List.length tr1) then Some tr1
      else waitLeader fuel' tr1
  end.

(** [Leave] returns its error and the trace of what it did; [None] when a
    loop needs more than [fuel] rounds. *)
Definition Leave (fuel : nat) (c : coordinator) (origin id0 : string)
  : option (option error * list Event) :=
  let id_ := if bool_decide (String.length id0 = 0%nat) then id c else id0 in
  if negb (IsRaftLeader env 0%nat) then
    let tr := [EvForward (FwdLeave origin id_)] in
    match forward env (FwdLeave origin id_) with
    | Some err => Some (Some err, tr)
    | None =>
        let limit := Add (Now env (List.length tr)) (raftRemoveGracePeriod c) in
        match waitRemoved fuel c limit tr with
        | None => None
        | Some (_, tr') => Some (None, tr')
        end
    end
  else
    let tr := [EvGetConfiguration] in
    match raft_GetConfiguration env 0%nat with
    | inl err => Some (Some err, tr)
    | inr servers =>
        let numPeers := List.length servers in
        if bool_decide (id_ = id c) then
          if (numPeers <=? 1)%nat then Some (None, tr)
          else
            let tr1 := tr ++ [EvLeadershipTransfer] in
            match leadershipTransfer env with
            | Some err => Some (Some err, tr1)
            | None =>
                match waitLeader fuel tr1 with
                | None => None
                | Some tr2 =>
                    let tr3 := tr2 ++ [EvForward (FwdLeave "" id_)] in
                    match forward env (FwdLeave "" id_) with
                    | Some err => Some (Some err, tr3)
                    | None =>
                        let limit :=
                          Add (Now env (List.length tr3)) (raftRemoveGracePeriod c) in
                        match waitRemoved fuel c limit tr3 with
                        | None => None
                        | Some (_, tr') => Some (None, tr')
                        end
                    end
                end
            end
        else
          let '(_, evs) := RemoveNode (List.length tr) id_ in
          let tr1 := tr ++ evs ++ [EvRemoveServer id_] in
          match raft_RemoveServer env id_ with
          | Some err => Some (Some err, tr1)
          | None => Some (None, tr1)
          end
    end.

(** The events that change the cluster: every event but reading the
    configuration and sleeping. *)
Definition mutating (e : Event) : bool :=
  match e with
  | EvGetConfiguration | EvSleep _ => false
  | _ => true
  end.

End Coordinator.

End Cluster.

(** ** The peer client (package proxy): the metrics task of a node *)
Module Proxy.
Import GoTime.

Definition error := string.

(** A metric of [clientapi.MetricsResponse]: its name and the [Value] of
    each of its samples. *)
Record MetricsResponseMetric := {
  Name : string;
  Values : list float;
}.

(** The integer part of a float, the fraction dropped; [None] for NaN and
    the infinities. *)
Definition truncate (f : float) : option Z :=
  match Prim2SF f with
  | S754_zero _ => Some 0
  | S754_finite sign m e =>
      let magnitude :=
        if 0 <=? e then Z.pos m * 2 ^ e else Z.pos m / 2 ^ (- e) in
      Some (if sign then - magnitude else magnitude)
  | _ => None
  end.

(** The instruction CVTTSD2SQ: the integer part as an int64, and the
    integer indefinite value [- 2 ^ 63] when it does not fit or the float is
    NaN or an infinity. *)
Definition cvttsd2sq (f : float) : Z :=
  match truncate f with
  | Some z => if (- 2 ^ 63 <=? z) && (z <? 2 ^ 63) then z else - 2 ^ 63
  | None => - 2 ^ 63
  end.

(** The conversion [uint64(f)].  When the integer part of [f] fits uint64
    the result is that integer.  Otherwise Go leaves the result to the
    implementation; the definition is the code the compiler emits for
    amd64: below [2 ^ 63] the bits of the signed conversion, and from
    [2 ^ 63] on (and for NaN, which compares false) the signed conversion of
    [f - 2 ^ 63] with the top bit set.  So a negative integer part wraps,
    and NaN, the infinities and every float from [2 ^ 64] on or below
    [- 2 ^ 63] give [2 ^ 63]. *)
Definition uint64 (f : float) : Z :=
  if (f <? 9223372036854775808)%float then cvttsd2sq f mod 2 ^ 64
  else Z.lor (cvttsd2sq (f - 9223372036854775808)%float mod 2 ^ 64) (2 ^ 63).

(** [n.resources] *)
Record resources := {
  ncpu : float;
  cpu : float;
  mem : Z;
  memTotal : Z;
}.

Inductive nodeState := stateDisconnected | stateConnected.

(** The fields of [node] guarded by [stateLock] that the ping and metrics
    tasks share. *)
Record node := {
  lastContact : Time;
  node_resources : resources;
  state : nodeState;
  latency : float;
}.

(** The first critical section of a tick, entered when the query failed. *)
Definition metricsFailed (n : node) : node :=
  {| lastContact := lastContact n;
     node_resources :=
       {| ncpu := 1; cpu := 100; mem := 0; memTotal := memTotal (node_resources n) |};
     state := state n;
     latency := latency n |}.

(** The four locals the loop over [metrics.Metrics] fills. *)
Record sample := {
  cpu_ncpu : float;
  cpu_idle : float;
  mem_total : Z;
  mem_free : Z;
}.

Definition noSample : sample :=
  {| cpu_ncpu := 0; cpu_idle := 0; mem_total := 0; mem_free := 0 |}.

(** One round of the loop; [None] is the panic of [x.Values[0]] on an empty
    slice. *)
Definition readMetric (x : MetricsResponseMetric) (a : sample) : option sample :=
  if bool_decide (Name x = "cpu_idle") then
    match Values x with
    | v :: _ =>
        Some {| cpu_ncpu := cpu_ncpu a; cpu_idle := v;
                mem_total := mem_total a; mem_free := mem_free a |}
    | [] => None
    end
  else if bool_decide (Name x = "cpu_ncpu") then
    match Values x with
    | v :: _ =>
        Some {| cpu_ncpu := v; cpu_idle := cpu_idle a;
                mem_total := mem_total a; mem_free := mem_free a |}
    | [] => None
    end
  else if bool_decide (Name x = "mem_total") then
    match Values x with
    | v :: _ =>
        Some {| cpu_ncpu := cpu_ncpu a; cpu_idle := cpu_idle a;
                mem_total := uint64 v; mem_free := mem_free a |}
    | [] => None
    end
  else if bool_decide (Name x = "mem_free") then
    match Values x with
    | v :: _ =>
        Some {| cpu_ncpu := cpu_ncpu a; cpu_idle := cpu_idle a;
                mem_total := mem_total a; mem_free := uint64 v |}
    | [] => None
    end
  else Some a.

Fixpoint readMetrics (metrics : list MetricsResponseMetric) (a : sample)
  : option sample :=
  match metrics with
  | [] => Some a
  | x :: rest =>
      match readMetric x a with
      | Some a' => readMetrics rest a'
      | None => None
      end
  end.

(** The second critical section: the sample is stored. *)
Definition storeSample (now : Time) (a : sample) (n : node) : node :=
  {| lastContact := now;
     node_resources :=
       {| ncpu := cpu_ncpu a;
          cpu := ((100 - cpu_idle a) * cpu_ncpu a)%float;
          mem := if bool_decide (mem_total a = 0) then 0
                 else (mem_total a - mem_free a) mod 2 ^ 64;
          memTotal := if bool_decide (mem_total a = 0) then 0 else mem_total a |};
     state := state n;
     latency := latency n |}.

(** One tick of the metrics task: [metrics] and [err] are what
    [n.peer.Metrics] returned, [now] the clock at the end of the tick.
    [None] is a panic. *)
Definition metricsTick (now : Time) (metrics : list MetricsResponseMetric)
    (err : option error) (n : node) : option node :=
  let n1 := match err with Some _ => metricsFailed n | None => n end in
  match readMetrics metrics noSample with
  | Some a => Some (storeSample now a n1)
  | None => None
  end.

End Proxy.

(** ** Concrete data for the examples

    A configuration reduced to what the store reads of it, and a codec under
    which the bytes of a log entry are the name of its operation. *)
Module Fixture.
Import GoTime.

Record config := {
  cfg_ID : string;
  cfg_Domain : string;
  cfg_Reference : string;
}.

Definition configHash (c : config) : list Byte.byte :=
  list_byte_of_string (cfg_ID c +:+ "/" +:+ cfg_Domain c +:+ "/" +:+ cfg_Reference c).

Definition app : Store.App :=
  {| Store.app_Config := config;
     Store.app_ProcessID := string * string;
     Store.Config_ProcessID := fun c => (cfg_ID c, cfg_Domain c);
     Store.ProcessID_String := fun p => p.1 +:+ "@" +:+ p.2;
     Store.Config_Hash := configHash;
     Store.Value := string;
     Store.identity_User := string;
     Store.User_Name := fun u => u;
     Store.access_Policy := string |}.

#[local] Existing Instance app.

Definition mkConfig (id ref : string) : config :=
  {| cfg_ID := id; cfg_Domain := ""; cfg_Reference := ref |}.

Definition codec : @Store.Codec app :=
  {| Store.Unmarshal_Command := fun data =>
       Some {| Store.Operation_ := string_of_list_byte data; Store.Data := None |};
     Store.as_CommandAddProcess := fun _ =>
       {| Store.AddProcess_Config := mkConfig "p1" "" |};
     Store.as_CommandRemoveProcess := fun _ =>
       {| Store.RemoveProcess_ID := ("p1", "") |};
     Store.as_CommandUpdateProcess := fun _ =>
       {| Store.UpdateProcess_ID := ("p1", "");
          Store.UpdateProcess_Config := mkConfig "p1" "v2" |};
     Store.as_CommandSetProcessMetadata := fun _ =>
       {| Store.SetProcessMetadata_ID := ("p1", "");
          Store.SetProcessMetadata_Key := "k";
          Store.SetProcessMetadata_Data := None |};
     Store.as_CommandAddIdentity := fun _ =>
       {| Store.AddIdentity_Identity := "alice" |};
     Store.as_CommandUpdateIdentity := fun _ =>
       {| Store.UpdateIdentity_Name := "alice";
          Store.UpdateIdentity_Identity := "alice" |};
     Store.as_CommandRemoveIdentity := fun _ =>
       {| Store.RemoveIdentity_Name := "alice" |};
     Store.as_CommandSetPolicies := fun _ =>
       {| Store.SetPolicies_Name := "alice"; Store.SetPolicies_Policies := [] |} |}.

Definition entry (op : string) : Store.Log :=
  {| Store.Index := 7; Store.Term := 2; Store.Log_Data := list_byte_of_string op |}.

Definition clock (k : nat) : Time := 1000 + Z.of_nat k.

(** A process as [addProcess] stores it at time [t], with one metadata
    entry set afterwards. *)
Definition stored (id ref : string) (t : Time) : @Store.Process app :=
  {| Store.CreatedAt := t;
     Store.UpdatedAt := t;
     Store.Config := mkConfig id ref;
     Store.Metadata := Some {[ "owner" := "ops" ]} |}.

(** A store holding the processes p1 and p2. *)
Definition twoProcesses : @Store.store app :=
  {| Store.store_Process := {[ "p1@" := stored "p1" "" 10; "p2@" := stored "p2" "" 20 ]};
     Store.store_Users :=
       {| Store.Users_UpdatedAt := 30; Store.Users_Users := {[ "alice" := "alice" ]} |};
     Store.store_Policies :=
       {| Store.Policies_UpdatedAt := 40; Store.Policies_Policies := ∅ |};
     Store.callback := true |}.

(** A store holding p2 only: the state of a leader on which p1 was
    removed. *)
Definition onlyP2 : @Store.store app :=
  {| Store.store_Process := {[ "p2@" := stored "p2" "" 20 ]};
     Store.store_Users :=
       {| Store.Users_UpdatedAt := 50; Store.Users_Users := ∅ |};
     Store.store_Policies :=
       {| Store.Policies_UpdatedAt := 60; Store.Policies_Policies := ∅ |};
     Store.callback := false |}.

Definition updateTo (old : string) (c : config) : @Store.CommandUpdateProcess app :=
  {| Store.UpdateProcess_ID := (old, ""); Store.UpdateProcess_Config := c |}.

End Fixture.

(** An index, updates and a coordinator for the examples. *)
Module ClusterFixture.
Import GoTime Cluster.

#[local] Existing Instance Fixture.app.

(** A node is its address; the URL of a path is built from both. *)
Definition getURL (n : string) (path : string) : option string :=
  Some (n +:+ "/" +:+ path).

(** Node B published mem:/x.m3u8 and was last heard of five seconds after
    the zero time. *)
Definition index : cluster string :=
  {| nodes := {[ "B" := "http://b:8080" ]};
     idfiles := {[ "B" := ["mem:/x.m3u8"] ]};
     idupdate := {[ "B" := 5 * Second ]};
     fileid := {[ "mem:/x.m3u8" := "B" ]} |}.

Definition connected (files : list string) (t : Time) : NodeState :=
  {| ID := "B"; State := "connected"; Files := files; LastUpdate := t |}.

Definition disconnected (t : Time) : NodeState :=
  {| ID := "B"; State := "disconnected"; Files := []; LastUpdate := t |}.

Definition emptyIndex : cluster string :=
  {| nodes := {[ "B" := "http://b:8080" ]};
     idfiles := ∅; idupdate := ∅; fileid := ∅ |}.

Definition ErrDegraded : error := "cluster is degraded".

(** A leader in degraded mode whose raft and forwarder accept every call. *)
Definition degradedLeader : Env :=
  {| IsDegraded := true;
     IsRaftLeader := fun _ => true;
     hasRaftLeader := fun _ => true;
     Now := fun k => Z.of_nat k * Second;
     Validate := fun _ => None;
     forward := fun _ => None;
     json_Marshal := fun _ => None;
     raft_Apply := fun _ => None;
     raft_GetConfiguration := fun _ =>
       inr [ {| Server_ID := "A"; Server_Address := "127.0.0.1:7000" |} ];
     raft_RemoveServer := fun _ => None;
     leadershipTransfer := None |}.

(** The local node A of a cluster of one. *)
Definition self : coordinator :=
  {| id := "A"; raftAddress := "127.0.0.1:7000"; raftRemoveGracePeriod := 5 * Second |}.

(** [time.ParseDuration] on the one duration the examples use. *)
Definition parseDuration (s : string) : option Duration :=
  if bool_decide (s = "5ms") then Some (5 * Millisecond) else None.

Definition lastContact (v : string) : gmap string string :=
  {[ "last_contact" := v ]}.

End ClusterFixture.

Module ProxyFixture.
Import GoTime Proxy.

(** A connected node with four cores, sampled before the query fails. *)
Definition sampled : node :=
  {| lastContact := 100;
     node_resources := {| ncpu := 4; cpu := 150; mem := 2048; memTotal := 8192 |};
     state := stateConnected;
     latency := 0 |}.

End ProxyFixture.

(** ** The read side of the store (package store)

    [ProcessList], [UserList] and [PolicyList] range over a Go map, whose
    order is not specified; the lists here follow the order of
    [map_to_list], and what is proved about them does not depend on it. *)
Module StoreQueries.
Import GoTime Store.

Section Queries.
Context `{App}.
(** [config.Clone()] *)
Variable Clone : app_Config -> app_Config.

(** [Users]: what [UserList] and [GetUser] return. *)
Record Users := {
  users_UpdatedAt : Time;
  users_Users : list identity_User;
}.

(** [Policies]: what [PolicyList] and [PolicyUserList] return. *)
Record Policies := {
  policies_UpdatedAt : Time;
  policies_Policies : list access_Policy;
}.

(** The copy of a stored process that is handed out. *)
Definition export (p : Process) : Process :=
  {| CreatedAt := CreatedAt p;
     UpdatedAt := UpdatedAt p;
     Config := Clone (Config p);
     Metadata := Metadata p |}.

Definition ProcessList (s : store) : list Process :=
  (fun kp => export kp.2) <$> map_to_list (store_Process s).

(** [GetProcess] returns the process or the error. *)
Definition GetProcess (id : app_ProcessID) (s : store) : Process + string :=
  match store_Process s !! ProcessID_String id with
  | None => inr "not found"
  | Some process => inl (export process)
  end.

Definition UserList (s : store) : Users :=
  {| users_UpdatedAt := Users_UpdatedAt (store_Users s);
     users_Users := snd <$> map_to_list (Users_Users (store_Users s)) |}.

Definition GetUser (name : string) (s : store) : Users :=
  {| users_UpdatedAt := Users_UpdatedAt (store_Users s);
     users_Users :=
       match Users_Users (store_Users s) !! name with
       | Some user => [user]
       | None => []
       end |}.

Definition PolicyList (s : store) : Policies :=
  {| policies_UpdatedAt := Policies_UpdatedAt (store_Policies s);
     policies_Policies :=
       concat (snd <$> map_to_list (Policies_Policies (store_Policies s))) |}.

(** A name missing from the map reads as the nil slice. *)
Definition PolicyUserList (name : string) (s : store) : Policies :=
  {| policies_UpdatedAt := Policies_UpdatedAt (store_Policies s);
     policies_Policies :=
       default [] (Policies_Policies (store_Policies s) !! name) |}.

(** [ListIdentity] of the cluster: the time of the last change of the user
    table and the user, or the error. *)
Definition ListIdentity (name : string) (s : store)
  : Time * identity_User + string :=
  let user := GetUser name s in
  match users_Users user with
  | [] => inr "not found"
  | u :: _ => inl (users_UpdatedAt user, u)
  end.

(** An operation that returns an error has not touched the store, and no
    operation touches the callback. *)
Definition atomic (r : option StoreError * store) (s : store) : Prop :=
  (forall e, r.1 = Some e -> r.2 = s) /\ callback r.2 = callback s.

(** Every key of the user map is the name of the identity stored under
    it. *)
Definition usersKeyed (s : store) : Prop :=
  forall k u, Users_Users (store_Users s) !! k = Some u -> User_Name u = k.

End Queries.
End StoreQueries.

(** The operations [Apply] knows: the cases of its switch. *)
Module StoreOps.
Import Store.

Definition handledOperations : list Operation :=
  [ OpAddProcess; OpRemoveProcess; OpUpdateProcess; OpSetProcessMetadata;
    OpAddIdentity; OpUpdateIdentity; OpRemoveIdentity; OpSetPolicies ].

End StoreOps.

(** ** The cluster coordinator: joining, node registry, shutdown, leader
       observations and the HTTP handler for new identities *)
Module Membership.
Import GoTime Store Cluster.

Section Join.
Context `{App}.
Variable env : Env.
(** [c.forwarder.Join(...)] and the error of [c.raft.AddVoter(...)] *)
Variable forwardJoin :
  string -> string -> string -> string -> string -> string -> option error.
Variable raft_AddVoter : string -> string -> option error.

(** What [Join] does to the world outside: the events of the other calls,
    forwarding a join and adding a voter. *)
Inductive JoinEvent :=
| EvBase (e : Event)
| EvForwardJoin (origin id raftAddress apiAddress apiUsername apiPassword : string)
| EvAddVoter (id address : string).

(** [AddNode], called after [k] events. *)
Definition AddNode (k : nat) (id address username password : string)
  : option error * list Event :=
  if negb (IsRaftLeader env k) then (Some "not leader", [])
  else
    applyCommand env
      {| cmd_Operation := opAddNode;
         cmd_Data := DataAddNode id address username password |}.

Definition errRemovingExisting (id raftAddress : string) (err : error) : error :=
  "error removing existing node " +:+ id +:+ " at " +:+ raftAddress +:+ ": " +:+ err.

(** The loop of [Join] over the servers of the configuration: [inl] when
    the loop returns from [Join], [inr] when it runs to its end. *)
Fixpoint removeExisting (id raftAddress : string) (servers : list Server)
    (tr : list JoinEvent) : (option error * list JoinEvent) + list JoinEvent :=
  match servers with
  | [] => inr tr
  | srv :: rest =>
      if bool_decide (Server_ID srv = id)
         || bool_decide (Server_Address srv = raftAddress) then
        if bool_decide (Server_ID srv = id)
           && bool_decide (Server_Address srv = raftAddress) then
          inl (None, tr)
        else
          let tr1 := tr ++ [EvBase (EvRemoveServer (Server_ID srv))] in
          match raft_RemoveServer env (Server_ID srv) with
          | Some err => inl (Some (errRemovingExisting id raftAddress err), tr1)
          | None => removeExisting id raftAddress rest tr1
          end
      else removeExisting id raftAddress rest tr
  end.

Definition Join (origin id raftAddress apiAddress apiUsername apiPassword : string)
  : option error * list JoinEvent :=
  if negb (IsRaftLeader env 0%nat) then
    (forwardJoin origin id raftAddress apiAddress apiUsername apiPassword,
     [EvForwardJoin origin id raftAddress apiAddress apiUsername apiPassword])
  else
    match raft_GetConfiguration env 0%nat with
    | inl err => (Some err, [EvBase EvGetConfiguration])
    | inr servers =>
        match removeExisting id raftAddress servers [EvBase EvGetConfiguration] with
        | inl r => r
        | inr tr =>
            let tr1 := tr ++ [EvAddVoter id raftAddress] in
            match raft_AddVoter id raftAddress with
            | Some err => (Some err, tr1)
            | None =>
                let '(_, evs) :=
                  AddNode (List.length tr1) id apiAddress apiUsername apiPassword in
                (None, tr1 ++ (EvBase <$> evs))
            end
        end
    end.

(** The events that make a node a member: adding a voter and handing a
    command to raft. *)
Definition admits (e : JoinEvent) : bool :=
  match e with
  | EvAddVoter _ _ | EvBase (EvRaftApply _) => true
  | _ => false
  end.

(** A server that has the id or the address of the joining node, but not
    both. *)
Definition collides (id raftAddress : string) (srv : Server) : Prop :=
  (Server_ID srv = id \/ Server_Address srv = raftAddress)
  /\ ~ (Server_ID srv = id /\ Server_Address srv = raftAddress).

(** The event of removing a server of the list that collides with the
    joining node. *)
Definition removal (id raftAddress : string) (servers : list Server)
    (e : JoinEvent) : Prop :=
  exists srv, srv ∈ servers /\ collides id raftAddress srv
              /\ e = EvBase (EvRemoveServer (Server_ID srv)).

End Join.

Section Registry.
(** [*node] of the registry, with [node.ID()], [node.IPs()] and the
    constructor [newNode]; none of them is part of the sources. *)
Variable node : Type.
Variable node_ID : node -> string.
Variable node_IPs : node -> list string.
Variable newNode : string -> string -> string -> node + error.
(** [node.getFile(path)], [None] when it returns an error; the data
    stands for the reader. *)
Variable Data : Type.
Variable getFile : node -> string -> option Data.

(** [GetFile] returns the pair (data, err). *)
Definition GetFile (now : Time) (path : string) (c : cluster node)
  : option Data * option error :=
  match fileid c !! path with
  | None => (None, Some errFileNotFound)
  | Some id =>
      match idupdate c !! id with
      | None => (None, Some errFileNotFound)
      | Some ts =>
          if 2 * Second <? Since now ts then (None, Some errFileNotFound)
          else
            match nodes c !! id with
            | None => (None, Some errFileNotFound)
            | Some n =>
                match getFile n path with
                | None => (None, Some errFileNotFound)
                | Some data => (Some data, None)
                end
            end
      end
  end.

(** What the registry does to nodes, to the IP limiter and to the
    cluster. *)
Inductive RegistryEvent :=
| EvStop (n : node)
| EvAddBlock (ip : string)
| EvRemoveBlock (ip : string)
| EvLeave (origin id : string).

Definition setNodes (c : cluster node) (m : gmap string node) : cluster node :=
  {| nodes := m; idfiles := idfiles c; idupdate := idupdate c; fileid := fileid c |}.

Definition errAddMyself : error :=
  "can't add myself as node or a node with the same ID".

(** [AddNodeX] on the cluster with id [self]: the pair it returns, the
    cluster it leaves and what it did. *)
Definition AddNodeX (self address username password : string) (c : cluster node)
  : (string * option error) * cluster node * list RegistryEvent :=
  match newNode address username password with
  | inr err => (("", Some err), c, [])
  | inl n =>
      let id := node_ID n in
      if bool_decide (id = self) then (("", Some errAddMyself), c, [])
      else
        match nodes c !! id with
        | Some _ => ((id, None), c, [EvStop n])
        | None =>
            ((id, None), setNodes c (<[id := n]> (nodes c)),
             EvAddBlock <$> node_IPs n)
        end
  end.

Definition ErrNodeNotFound : error := "node not found".

Definition RemoveNodeX (id : string) (c : cluster node)
  : option error * cluster node * list RegistryEvent :=
  match nodes c !! id with
  | None => (Some ErrNodeNotFound, c, [])
  | Some n =>
      (None, setNodes c (delete id (nodes c)),
       [EvStop n] ++ (EvRemoveBlock <$> node_IPs n) ++ [EvLeave "" id])
  end.

Definition GetNodeX (id : string) (c : cluster node) : node + error :=
  match nodes c !! id with
  | None => inr "node not found"
  | Some n => inl n
  end.

(** The IPs an event blocks, and the ones it unblocks. *)
Definition blocked (e : RegistryEvent) : list string :=
  match e with EvAddBlock ip => [ip] | _ => [] end.

Definition unblocked (e : RegistryEvent) : list string :=
  match e with EvRemoveBlock ip => [ip] | _ => [] end.

(** *** Shutdown *)

Inductive ShutdownEvent :=
| EvCloseShutdownCh
| EvStopNode (id : string)
| EvTransportClose
| EvRaftShutdown
| EvRaftStoreClose.

(** The fields of [cluster] that [Shutdown] reads and writes: the flag, the
    nodes, and whether [c.raft] and [c.raftStore] are set. *)
Record lifecycle := {
  shutdown : bool;
  running : gmap string node;
  hasRaft : bool;
  hasRaftStore : bool;
}.

Definition shutdownRaft (c : lifecycle) : list ShutdownEvent :=
  if hasRaft c then
    [EvTransportClose; EvRaftShutdown]
      ++ (if hasRaftStore c then [EvRaftStoreClose] else [])
  else [].

(** [Shutdown] always returns nil; the nodes are stopped in the order of
    the map. *)
Definition Shutdown (c : lifecycle) : lifecycle * list ShutdownEvent :=
  if shutdown c then (c, [])
  else
    ({| shutdown := true; running := ∅;
        hasRaft := hasRaft c; hasRaftStore := hasRaftStore c |},
     [EvCloseShutdownCh]
       ++ ((fun kn => EvStopNode kn.1) <$> map_to_list (running c))
       ++ shutdownRaft c).

(** [n] calls of [Shutdown] in a row, and all they did. *)
Fixpoint ShutdownTimes (n : nat) (c : lifecycle) : lifecycle * list ShutdownEvent :=
  match n with
  | O => (c, [])
  | S n' =>
      let '(c1, evs1) := Shutdown c in
      let '(c2, evs2) := ShutdownTimes n' c1 in
      (c2, evs1 ++ evs2)
  end.

Definition closes (e : ShutdownEvent) : bool :=
  match e with EvCloseShutdownCh => true | _ => false end.

End Registry.

(** *** The forwarder's leader address and the leader observations *)
Section Leader.
(** [net.SplitHostPort] without its error, [strconv.Atoi], [strconv.Itoa]
    and [net.JoinHostPort]. *)
Variable SplitHostPort : string -> string * string.
Variable Atoi : string -> Z + error.
Variable Itoa : Z -> string.
Variable JoinHostPort : string -> string -> string.

(** The fields of the forwarder: its id and the address of its client. *)
Record forwarder := {
  fwd_id : string;
  Address : string;
}.

Definition SetLeader (address : string) (f : forwarder) : forwarder :=
  if bool_decide (Address f = address) then f
  else {| fwd_id := fwd_id f; Address := address |}.

Definition HasLeader (f : forwarder) : bool :=
  negb (String.length (Address f) =? 0)%nat.

(** Go's [int] addition on a 64-bit platform. *)
Definition wrapInt (z : Z) : Z := (z + 2 ^ 63) mod 2 ^ 64 - 2 ^ 63.

(** [APIAddr] of the node with raft address [own]. *)
Definition APIAddr (own raftAddress : string) : string * option error :=
  let raftAddress :=
    if (String.length raftAddress =? 0)%nat then own else raftAddress in
  let '(host, port) := SplitHostPort raftAddress in
  match Atoi port with
  | inr err => ("", Some err)
  | inl p => (JoinHostPort host (Itoa (wrapInt (p + 1))), None)
  end.

(** What [trackLeaderChanges] keeps up to date. *)
Record leaderView := {
  fwd : forwarder;
  hasRaftLeader : bool;
}.

(** An observation received from raft, by the type of its data: a leader
    observation with the leader's address, a peer observation, or any other
    type. *)
Inductive Observation :=
| LeaderObservation (leaderAddr : string)
| PeerObservation
| OtherObservation.

Definition observe (own : string) (obs : Observation) (v : leaderView) : leaderView :=
  match obs with
  | LeaderObservation leaderAddr =>
      let addr :=
        if negb (String.length leaderAddr =? 0)%nat
        then (APIAddr own leaderAddr).1
        else leaderAddr in
      {| fwd := SetLeader addr (fwd v);
         hasRaftLeader := negb (String.length addr =? 0)%nat |}
  | PeerObservation => v
  | OtherObservation => v
  end.

Definition observeAll (own : string) (obss : list Observation) (v : leaderView)
  : leaderView :=
  foldl (fun v obs => observe own obs v) v obss.

Definition isLeaderObservation (obs : Observation) : bool :=
  match obs with LeaderObservation _ => true | _ => false end.

(** The leader flag says what the forwarder says. *)
Definition agree (v : leaderView) : Prop := hasRaftLeader v = HasLeader (fwd v).

End Leader.

(** *** The HTTP handler for new identities *)
Section Handler.
Context `{App}.
Variable ErrDegraded : error.
(** The cluster as [AddIdentity] finds it, and as [SetPolicies] finds it
    afterwards. *)
Variables env env2 : Env.
(** [h.iam.Enforce(name, domain, resource, action)], the fields
    [Superuser] of an identity and [Domain] of a policy. *)
Variable Enforce : string -> string -> string -> string -> bool.
Variable User_Superuser : identity_User -> bool.
Variable Policy_Domain : access_Policy -> string.

Definition StatusOK : Z := 200.
Definition StatusBadRequest : Z := 400.
Definition StatusForbidden : Z := 403.

(** The handler [AddIdentity]: [ctxuser] and [superuser] come from the
    request context, [domain] from the query; [body] is the identity and
    the policies that the request body binds and unmarshals to, [None] when
    binding fails.  The result is the status of the response and the calls
    made through the cluster. *)
Definition handleAddIdentity (ctxuser : string) (superuser : bool) (domain : string)
    (body : option (identity_User * list access_Policy)) : Z * list Event :=
  match body with
  | None => (StatusBadRequest, [])
  | Some (iamuser, iampolicies) =>
      let resource := "iam:" +:+ User_Name iamuser in
      if negb (Enforce ctxuser domain resource "write") then (StatusForbidden, [])
      else if existsb
                (fun p => negb (Enforce ctxuser (Policy_Domain p) resource "write"))
                iampolicies
      then (StatusForbidden, [])
      else if negb superuser && User_Superuser iamuser then (StatusForbidden, [])
      else
        let '(err1, evs1) := AddIdentity ErrDegraded env "" iamuser in
        match err1 with
        | Some _ => (StatusBadRequest, evs1)
        | None =>
            let '(err2, evs2) :=
              SetPolicies ErrDegraded env2 "" (User_Name iamuser) iampolicies in
            match err2 with
            | Some _ => (StatusBadRequest, evs1 ++ evs2)
            | None => (StatusOK, evs1 ++ evs2)
            end
        end
  end.

End Handler.

End Membership.

(** Notions for the properties of the coordinator. *)
Module Routing.
Import GoTime Store Cluster.

Section Routing.
Context `{App}.
Variable env : Env.

(** What a mutation may do when it enters with the leader flag it read:
    at most one call, to raft on the leader and to the forwarder on a
    follower. *)
Definition routed (r : option error * list Event) : Prop :=
  (List.length r.2 <= 1)%nat
  /\ Forall (fun e =>
       match e with
       | EvRaftApply _ => IsRaftLeader env 0%nat = true
       | EvForward _ => IsRaftLeader env 0%nat = false
       | _ => False
       end) r.2.

(** The clock advances while a loop sleeps: a round of a waiting loop makes
    two events, the sleep of 50 ms and the reading of the configuration. *)
Definition sleeps : Prop :=
  forall k, Now env k + 50 * Millisecond <= Now env (S (S k)).

(** The rounds the loop that waits for the removal can make in the grace
    period. *)
Definition graceRounds (c : coordinator) : nat :=
  Z.to_nat (raftRemoveGracePeriod c / (50 * Millisecond)) + 1.

End Routing.
End Routing.

(** Notions for the properties of the sentinel. *)
Module SentinelNotions.
Import GoTime Cluster.

Section Sentinel.
Variable ParseDuration : string -> option Duration.

(** A tick on which raft reports a contact at most ten seconds old. *)
Definition inContact (tick : Time * gmap string string) : Prop :=
  default "" (tick.2 !! "last_contact") <> "never"
  /\ exists d, ParseDuration (default "" (tick.2 !! "last_contact")) = Some d
               /\ d <= 10 * Second.

End Sentinel.
End SentinelNotions.

(** ** The peer client (package proxy): URLs, files and process configs *)
Module ProxyNode.
Import GoTime Proxy.

(** [strings.Cut(s, sep)] for a separator of one byte: the text before and
    after the first [sep], and whether [sep] occurs; without [sep] the
    result is [s], the empty string and false. *)
Fixpoint Cut (s : string) (sep : Ascii.ascii) : string * string * bool :=
  match s with
  | EmptyString => (EmptyString, EmptyString, false)
  | String a rest =>
      if Ascii.eqb a sep then (EmptyString, rest, true)
      else
        let '(before, after, found) := Cut rest sep in
        (String a before, after, found)
  end.

Definition colon : Ascii.ascii := Ascii.ascii_of_nat 58.

(** The fields of [node] that [Connect] fills and [GetURL] reads. *)
Record endpoints := {
  address : string;
  rtmpAddress : string;
  rtmpToken : string;
  srtAddress : string;
  srtPassphrase : string;
  srtToken : string;
}.

Section URLs.
(** [filepath.Join] and [url.QueryEscape] *)
Variable filepath_Join : string -> string -> string.
Variable QueryEscape : string -> string.

Definition nonEmpty (s : string) : bool := negb (String.length s =? 0)%nat.

(** [GetURL] returns the pair (url, err). *)
Definition GetURL (n : endpoints) (path0 : string) : string * option error :=
  let '(prefix, path, found) := Cut path0 colon in
  if negb found then ("", Some "no prefix provided")
  else if bool_decide (prefix = "mem") then
    (address n +:+ "/" +:+ filepath_Join "memfs" path, None)
  else if bool_decide (prefix = "disk") then (address n +:+ path, None)
  else if bool_decide (prefix = "rtmp") then
    let u := rtmpAddress n +:+ path in
    (if nonEmpty (rtmpToken n) then u +:+ "?token=" +:+ QueryEscape (rtmpToken n)
     else u,
     None)
  else if bool_decide (prefix = "srt") then
    let u := srtAddress n +:+ "?mode=caller" in
    let u :=
      if nonEmpty (srtPassphrase n)
      then u +:+ "&passphrase=" +:+ QueryEscape (srtPassphrase n)
      else u in
    let streamid := "#!:m=request,r=" +:+ path in
    let streamid :=
      if nonEmpty (srtToken n) then streamid +:+ ",token=" +:+ srtToken n
      else streamid in
    (u +:+ "&streamid=" +:+ QueryEscape streamid, None)
  else ("", Some "unknown prefix").

(** The peer a node is connected to, as [GetFile] uses it. *)
Record Peer (Data : Type) := {
  MemFSGetFile : string -> Data + error;
  DiskFSGetFile : string -> Data + error;
}.

(** [GetFile]; [peer] is [n.peer], [None] when it is nil. *)
Definition GetFile {Data : Type} (peer : option (Peer Data)) (path0 : string)
  : Data + error :=
  let '(prefix, path, found) := Cut path0 colon in
  if negb found then inr "no prefix provided"
  else
    match peer with
    | None => inr "not connected"
    | Some p =>
        if bool_decide (prefix = "mem") then MemFSGetFile Data p path
        else if bool_decide (prefix = "disk") then DiskFSGetFile Data p path
        else inr "unknown prefix"
    end.

(** The prefixes that [files] puts before the names it collects. *)
Definition filePrefixes : list string := ["mem"; "disk"; "rtmp"; "srt"].

(** A name as [files] sends it to the collector: [prefix + ":" + name]. *)
Definition prefixed (prefix name : string) : string := prefix +:+ ":" +:+ name.

End URLs.

(** *** The conversion of process configs

    The structs of packages app and clientapi are not part of the sources;
    the records have the fields that [ProcessList] and [ProcessAdd] copy,
    with the types of the numbers left open. *)
Section Configs.
Variables UInt Float : Type.

Record ConfigIOCleanup := {
  Pattern : string;
  MaxFiles : UInt;
  MaxFileAge : UInt;
  PurgeOnDelete : bool;
}.

(** [app.ConfigIO] and [clientapi.ProcessConfigIO] *)
Record ConfigIO := {
  io_ID : string;
  io_Address : string;
  io_Options : list string;
  io_Cleanup : list ConfigIOCleanup;
}.

(** [app.Config] *)
Record Config := {
  cfg_ID : string;
  cfg_Reference : string;
  cfg_Input : list ConfigIO;
  cfg_Output : list ConfigIO;
  cfg_Options : list string;
  cfg_Reconnect : bool;
  cfg_ReconnectDelay : UInt;
  cfg_Autostart : bool;
  cfg_StaleTimeout : UInt;
  cfg_LimitCPU : Float;
  cfg_LimitMemory : UInt;
  cfg_LimitWaitFor : UInt;
}.

(** [clientapi.ProcessConfigLimits] and [clientapi.ProcessConfig] *)
Record ProcessConfigLimits := {
  lim_CPU : Float;
  lim_Memory : UInt;
  lim_WaitFor : UInt;
}.

Record ProcessConfig := {
  pc_ID : string;
  pc_Reference : string;
  pc_Input : list ConfigIO;
  pc_Output : list ConfigIO;
  pc_Options : list string;
  pc_Reconnect : bool;
  pc_ReconnectDelay : UInt;
  pc_Autostart : bool;
  pc_StaleTimeout : UInt;
  pc_Limits : ProcessConfigLimits;
}.

(** An input as both conversions copy it: id, address and options. *)
Definition copyInput (d : ConfigIO) : ConfigIO :=
  {| io_ID := io_ID d; io_Address := io_Address d;
     io_Options := io_Options d; io_Cleanup := [] |}.

Definition copyCleanup (c : ConfigIOCleanup) : ConfigIOCleanup :=
  {| Pattern := Pattern c; MaxFiles := MaxFiles c;
     MaxFileAge := MaxFileAge c; PurgeOnDelete := PurgeOnDelete c |}.

(** An output: its cleanup rules are copied one by one. *)
Definition copyOutput (d : ConfigIO) : ConfigIO :=
  {| io_ID := io_ID d; io_Address := io_Address d;
     io_Options := io_Options d; io_Cleanup := copyCleanup <$> io_Cleanup d |}.

(** The config that [ProcessAdd] sends to the peer. *)
Definition toProcessConfig (config : Config) : ProcessConfig :=
  {| pc_ID := cfg_ID config;
     pc_Reference := cfg_Reference config;
     pc_Input := copyInput <$> cfg_Input config;
     pc_Output := copyOutput <$> cfg_Output config;
     pc_Options := cfg_Options config;
     pc_Reconnect := cfg_Reconnect config;
     pc_ReconnectDelay := cfg_ReconnectDelay config;
     pc_Autostart := cfg_Autostart config;
     pc_StaleTimeout := cfg_StaleTimeout config;
     pc_Limits := {| lim_CPU := cfg_LimitCPU config;
                     lim_Memory := cfg_LimitMemory config;
                     lim_WaitFor := cfg_LimitWaitFor config |} |}.

(** The config that [ProcessList] builds from a process of the peer. *)
Definition toConfig (p : ProcessConfig) : Config :=
  {| cfg_ID := pc_ID p;
     cfg_Reference := pc_Reference p;
     cfg_Input := copyInput <$> pc_Input p;
     cfg_Output := copyOutput <$> pc_Output p;
     cfg_Options := pc_Options p;
     cfg_Reconnect := pc_Reconnect p;
     cfg_ReconnectDelay := pc_ReconnectDelay p;
     cfg_Autostart := pc_Autostart p;
     cfg_StaleTimeout := pc_StaleTimeout p;
     cfg_LimitCPU := lim_CPU (pc_Limits p);
     cfg_LimitMemory := lim_Memory (pc_Limits p);
     cfg_LimitWaitFor := lim_WaitFor (pc_Limits p) |}.

(** The inputs of a config without their cleanup rules. *)
Definition withoutInputCleanup (config : Config) : Config :=
  {| cfg_ID := cfg_ID config;
     cfg_Reference := cfg_Reference config;
     cfg_Input := copyInput <$> cfg_Input config;
     cfg_Output := cfg_Output config;
     cfg_Options := cfg_Options config;
     cfg_Reconnect := cfg_Reconnect config;
     cfg_ReconnectDelay := cfg_ReconnectDelay config;
     cfg_Autostart := cfg_Autostart config;
     cfg_StaleTimeout := cfg_StaleTimeout config;
     cfg_LimitCPU := cfg_LimitCPU config;
     cfg_LimitMemory := cfg_LimitMemory config;
     cfg_LimitWaitFor := cfg_LimitWaitFor config |}.

End Configs.

(** The metrics that the metrics task reads. *)
Definition sampledMetrics : list string :=
  ["cpu_idle"; "cpu_ncpu"; "mem_total"; "mem_free"].

(** What the response reports under a name: the first value of the last
    metric of that name, if the response has one. *)
Fixpoint reported (name : string) (metrics : list MetricsResponseMetric)
  : option float :=
  match metrics with
  | [] => None
  | x :: rest =>
      match reported name rest with
      | Some v => Some v
      | None => if bool_decide (Name x = name) then head (Values x) else None
      end
  end.

End ProxyNode.

(** ** More data for the examples: a follower, a leader of two nodes, a
       registry of peers, a leader address and a request for a new identity *)
Module MembershipFixture.
Import GoTime Cluster Membership.

#[local] Existing Instance Fixture.app.

Definition serverA : Server := {| Server_ID := "A"; Server_Address := "127.0.0.1:7000" |}.
Definition serverB : Server := {| Server_ID := "B"; Server_Address := "127.0.0.1:7010" |}.

(** A node that is not the leader, in a cluster of A and B; the clock moves
    a second with every event. *)
Definition follower : Env :=
  {| IsDegraded := false;
     IsRaftLeader := fun _ => false;
     Cluster.hasRaftLeader := fun _ => true;
     Now := fun k => Z.of_nat k * Second;
     Validate := fun _ => None;
     forward := fun _ => None;
     json_Marshal := fun _ => None;
     raft_Apply := fun _ => None;
     raft_GetConfiguration := fun _ => inr [serverA; serverB];
     raft_RemoveServer := fun _ => None;
     leadershipTransfer := None |}.

(** The leader of that cluster, not degraded. *)
Definition leaderOfTwo : Env :=
  {| IsDegraded := false;
     IsRaftLeader := fun _ => true;
     Cluster.hasRaftLeader := fun _ => true;
     Now := fun k => Z.of_nat k * Second;
     Validate := fun _ => None;
     forward := fun _ => None;
     json_Marshal := fun _ => None;
     raft_Apply := fun _ => None;
     raft_GetConfiguration := fun _ => inr [serverA; serverB];
     raft_RemoveServer := fun _ => None;
     leadershipTransfer := None |}.

(** A forwarder and a raft that accept every join. *)
Definition forwardJoin (origin id raftAddress apiAddress apiUsername apiPassword : string)
  : option error := None.

Definition addVoter (id address : string) : option error := None.

(** A peer of the registry: its id and its IPs. *)
Record peer := {
  peer_ID : string;
  peer_IPs : list string;
}.

(** Connecting to an address gives the peer named after it. *)
Definition newPeer (address username password : string) : peer + error :=
  if bool_decide (address = "") then inr "invalid address"
  else inl {| peer_ID := "node-" +:+ address; peer_IPs := [address; "::1"] |}.

Definition peerB : peer := {| peer_ID := "B"; peer_IPs := ["10.0.0.2"] |}.
Definition peerC : peer := {| peer_ID := "node-10.0.0.3"; peer_IPs := ["10.0.0.3"; "::1"] |}.

Definition registry : cluster peer :=
  {| nodes := {[ "B" := peerB ]};
     idfiles := {[ "B" := ["mem:/x.m3u8"] ]};
     idupdate := {[ "B" := 5 * Second ]};
     fileid := {[ "mem:/x.m3u8" := "B" ]} |}.

(** A running cluster with two peers, raft and its store. *)
Definition up : lifecycle peer :=
  {| shutdown := false;
     running := {[ "B" := peerB; "node-10.0.0.3" := peerC ]};
     hasRaft := true;
     hasRaftStore := true |}.

(** The functions of net and strconv on the one address the examples use. *)
Definition splitHostPort (s : string) : string * string :=
  let '(host, port, _) := ProxyNode.Cut s ProxyNode.colon in (host, port).

Definition atoi (s : string) : Z + error :=
  if bool_decide (s = "7000") then inl 7000 else inr "invalid syntax".

Definition itoa (z : Z) : string := pretty z.

Definition joinHostPort (host port : string) : string := host +:+ ":" +:+ port.

(** A view in which the flag says there is a leader and the forwarder has
    none. *)
Definition staleView : leaderView :=
  {| fwd := {| fwd_id := "A"; Address := "" |}; Membership.hasRaftLeader := true |}.

(** Only admin may write identities; nobody in the examples is a superuser;
    the domain of a policy is the policy. *)
Definition enforce (name domain resource action : string) : bool :=
  bool_decide (name = "admin").

Definition isSuperuser (u : string) : bool := false.

Definition policyDomain (p : string) : string := p.

End MembershipFixture.

Module MetricsFixture.
Import GoTime Proxy.

(** A response with the four metrics the task reads and one it skips. *)
Definition response : list MetricsResponseMetric :=
  [ {| Name := "cpu_ncpu"; Values := [4%float] |};
    {| Name := "cpu_idle"; Values := [50%float] |};
    {| Name := "uptime"; Values := [] |};
    {| Name := "mem_total"; Values := [8192%float] |};
    {| Name := "mem_free"; Values := [2048%float] |} ].

(** The node of [ProxyFixture.sampled] after a tick at 200 with that
    response. *)
Definition measured : node :=
  {| lastContact := 200;
     node_resources := {| ncpu := 4; cpu := 200; mem := 6144; memTotal := 8192 |};
     state := stateConnected;
     latency := 0 |}.

(** A response whose free memory exceeds its total. *)
Definition overfree : list MetricsResponseMetric :=
  [ {| Name := "mem_total"; Values := [2048%float] |};
    {| Name := "mem_free"; Values := [8192%float] |} ].

End MetricsFixture.

(** Commands for the examples of the store. *)
Module CommandFixture.
Import GoTime Fixture.

#[local] Existing Instance Fixture.app.

Definition addP3 (ref : string) : @Store.CommandAddProcess app :=
  {| Store.AddProcess_Config := mkConfig "p3" ref |}.

Definition removeP3 : @Store.CommandRemoveProcess app :=
  {| Store.RemoveProcess_ID := ("p3", "") |}.

Definition noteP1 : @Store.CommandSetProcessMetadata app :=
  {| Store.SetProcessMetadata_ID := ("p1", "");
     Store.SetProcessMetadata_Key := "note";
     Store.SetProcessMetadata_Data := Some "checked" |}.

Definition addBob : @Store.CommandAddIdentity app :=
  {| Store.AddIdentity_Identity := "bob" |}.

End CommandFixture.

(** Two configs of different domains with one hash: the hash of the
    fixture joins id, domain and reference with slashes, so the domain
    [""] with the reference ["/x"] hashes like the domain ["/"] with the
    reference ["x"]. *)
Module HashFixture.
Import GoTime Fixture.

#[local] Existing Instance Fixture.app.





End HashFixture.

(** ** Restore, with the error of the decoder (package store)

    [Store.Restore] is the call on a snapshot that decodes.  The decoder can
    also fail, after it has written a part of its input into the store; then
    [Restore] returns the error at once. *)
Module StoreRestore.
Import GoTime Store.

Section Restore.
Context `{App}.

(** What [dec.Decode(s)] did: the document it decoded into the store, and
    the error it returned.  With an error the document is what the decoder
    had decoded into the store when it gave up. *)
Record Decoding := {
  decoded : Document;
  decodeError : option string;
}.

(** A snapshot that decodes. *)
Definition decodes (doc : Document) : Decoding :=
  {| decoded := doc; decodeError := None |}.

(** [Restore] returns the pair of its error and the store it leaves: on an
    error of the decoder the store as the decoder left it; otherwise the
    loop over the processes has run. *)
Definition Restore (snapshot : Decoding) (s : store) : option string * store :=
  let s' := Decode (decoded snapshot) s in
  match decodeError snapshot with
  | Some err => (Some err, s')
  | None => (None, set_Process s' (normalize <$> store_Process s'))
  end.

End Restore.
End StoreRestore.

(** A snapshot with a process whose metadata map is nil. *)
Module RestoreFixture.
Import GoTime Fixture.

#[local] Existing Instance Fixture.app.

(** A process as [updateProcess] leaves it: no metadata map. *)
Definition bare (id ref : string) (t : Time) : @Store.Process app :=
  {| Store.CreatedAt := zero;
     Store.UpdatedAt := t;
     Store.Config := mkConfig id ref;
     Store.Metadata := None |}.

(** The snapshot of a store that holds p9 only, updated at 5. *)
Definition bareSnapshot : @Store.Document app :=
  {| Store.doc_Process := {[ "p9@" := bare "p9" "v2" 5 ]};
     Store.doc_Users := {| Store.Users_UpdatedAt := 5; Store.Users_Users := ∅ |};
     Store.doc_Policies :=
       {| Store.Policies_UpdatedAt := 5; Store.Policies_Policies := ∅ |} |}.

(** The same document, decoded into the store before the decoder gave
    up. *)
Definition truncated : @StoreRestore.Decoding app :=
  {| StoreRestore.decoded := bareSnapshot;
     StoreRestore.decodeError := Some "unexpected EOF" |}.

End RestoreFixture.

(** * Properties of the store *)
Module StoreSpec.
Import GoTime Store.

Section Operations.
Context `{App}.



Lemma updateProcess_taken now cmd s p :
  let srcid := ProcessID_String (UpdateProcess_ID cmd) in
  let dstid := ProcessID_String (Config_ProcessID (UpdateProcess_Config cmd)) in
  store_Process s !! srcid = Some p ->
  Config_Hash (Config p) <> Config_Hash (UpdateProcess_Config cmd) ->
  srcid <> dstid ->
  is_Some (store_Process s !! dstid) ->
  updateProcess now cmd s = (Some (errProcessExists dstid), s).
Proof.
  intros srcid dstid Hsrc Hhash Hne [q Hdst]. unfold updateProcess.
  fold srcid dstid. rewrite Hsrc. cbn zeta.
  rewrite bool_decide_eq_false_2 by done.
  rewrite bool_decide_eq_false_2 by done.
  by rewrite Hdst.
Qed.

Lemma updateProcess_stores now cmd s p :
  let srcid := ProcessID_String (UpdateProcess_ID cmd) in
  let dstid := ProcessID_String (Config_ProcessID (UpdateProcess_Config cmd)) in
  store_Process s !! srcid = Some p ->
  Config_Hash (Config p) <> Config_Hash (UpdateProcess_Config cmd) ->
  srcid = dstid \/ store_Process s !! dstid = None ->
  updateProcess now cmd s
  = (None,
     set_Process s (<[dstid := replacement now cmd]> (delete srcid (store_Process s)))).
Proof.
  intros srcid dstid Hsrc Hhash Hfree. unfold updateProcess.
  fold srcid dstid. rewrite Hsrc. cbn zeta.
  rewrite bool_decide_eq_false_2 by done.
  case_bool_decide as Hid.
  - rewrite <- Hid. by rewrite insert_delete_eq.
  - destruct Hfree as [Heq | Hdst]; [done |]. by rewrite Hdst.
Qed.

(** On a store whose keys are the ids of its configs, and with a hash that
    covers the id, a config stored under [srcid] and hashing like the new
    one has the new id: a new key that differs rules the no-op out. *)
Lemma differing_key_differing_hash cmd s p :
  let srcid := ProcessID_String (UpdateProcess_ID cmd) in
  let dstid := ProcessID_String (Config_ProcessID (UpdateProcess_Config cmd)) in
  hashCoversID -> keyed s ->
  store_Process s !! srcid = Some p ->
  srcid <> dstid ->
  Config_Hash (Config p) <> Config_Hash (UpdateProcess_Config cmd).
Proof.
  intros srcid dstid Hcov Hkeyed Hsrc Hne Hhash.
  apply Hne. rewrite <- (Hkeyed _ _ Hsrc). by apply Hcov.
Qed.

(** The stores that arise keep their process map keyed by the ids of the
    configs: every operation that writes the map writes under the id of the
    config it stores. *)
Lemma keyed_insert (s : store) (m : gmap string Process) (k : string) (r : Process) :
  (forall k' p, m !! k' = Some p -> ProcessID_String (Config_ProcessID (Config p)) = k') ->
  ProcessID_String (Config_ProcessID (Config r)) = k ->
  keyed (set_Process s (<[k := r]> m)).
Proof.
  intros Hm Hr k' p. cbn. rewrite lookup_insert_Some.
  intros [[<- <-] | [_ Hp]]; [done | by apply Hm].
Qed.

Lemma keyed_delete (s : store) (k : string) :
  keyed s ->
  forall k' p, delete k (store_Process s) !! k' = Some p ->
    ProcessID_String (Config_ProcessID (Config p)) = k'.
Proof.
  intros Hs k' p. rewrite lookup_delete_Some. intros [_ Hp]. by apply Hs.
Qed.

Lemma addProcess_keyed now cmd s : keyed s -> keyed (addProcess now cmd s).2.
Proof.
  intros Hs. unfold addProcess. case_match; [done |].
  by apply keyed_insert.
Qed.

Lemma removeProcess_keyed cmd s : keyed s -> keyed (removeProcess cmd s).2.
Proof.
  intros Hs. unfold removeProcess. case_match; [| done].
  intros k q. cbn. by apply keyed_delete.
Qed.

Lemma updateProcess_keyed now cmd s : keyed s -> keyed (updateProcess now cmd s).2.
Proof.
  intros Hs. unfold updateProcess. case_match; [| done]. cbn zeta.
  case_bool_decide; [done |]. case_bool_decide as Hid.
  - apply keyed_insert; [apply Hs | by rewrite Hid].
  - case_match; [done |]. apply keyed_insert; [by apply keyed_delete | done].
Qed.

Lemma setProcessMetadata_keyed now cmd s :
  keyed s -> keyed (setProcessMetadata now cmd s).2.
Proof.
  intros Hs. unfold setProcessMetadata. case_match eqn:Hp; [| done].
  apply keyed_insert; [apply Hs |]. cbn. by apply Hs.
Qed.


(** Where the two tests cannot both apply: on a store keyed by the ids of
    its configs, and with a hash that covers the id, a new key that differs
    from [old_id] and is taken always gives the already-exists error. *)
Lemma updateProcess_taken_covered (now : Time) (cmd : CommandUpdateProcess)
    (s : store) (p : Process) :
  let srcid := ProcessID_String (UpdateProcess_ID cmd) in
  let dstid := ProcessID_String (Config_ProcessID (UpdateProcess_Config cmd)) in
  hashCoversID -> keyed s ->
  store_Process s !! srcid = Some p ->
  srcid <> dstid -> is_Some (store_Process s !! dstid) ->
  updateProcess now cmd s = (Some (errProcessExists dstid), s).
Proof.
  intros srcid dstid Hcov Hkeyed Hsrc Hne Hdst.
  apply updateProcess_taken with p; try done.
  by apply differing_key_differing_hash with s.
Qed.

(** C10: a successful update that is not the no-op writes a record whose
    [CreatedAt] is the zero time and whose [Metadata] is the nil map: of the
    record it replaces nothing is kept, only [Config] and [UpdatedAt] are
    set. *)
Theorem updateProcess_resets_record (now : Time) (cmd : CommandUpdateProcess)
    (s : store) (p : Process) :
  let dstid := ProcessID_String (Config_ProcessID (UpdateProcess_Config cmd)) in
  store_Process s !! ProcessID_String (UpdateProcess_ID cmd) = Some p ->
  Config_Hash (Config p) <> Config_Hash (UpdateProcess_Config cmd) ->
  (updateProcess now cmd s).1 = None ->
  exists r,
    store_Process (updateProcess now cmd s).2 !! dstid = Some r
    /\ CreatedAt r = zero
    /\ Metadata r = None
    /\ Config r = UpdateProcess_Config cmd
    /\ UpdatedAt r = now.
Proof.
  intros dstid Hsrc Hhash Hok.
  exists (replacement now cmd).
  destruct (decide (ProcessID_String (UpdateProcess_ID cmd) = dstid)) as [Heq | Hne].
  - rewrite (updateProcess_stores now cmd s p Hsrc Hhash (or_introl Heq)). cbn.
    fold dstid. by rewrite lookup_insert_eq.
  - destruct (store_Process s !! dstid) as [q |] eqn:Hdst.
    + rewrite (updateProcess_taken now cmd s p Hsrc Hhash Hne) in Hok; [done |].
      fold dstid. by rewrite Hdst.
    + rewrite (updateProcess_stores now cmd s p Hsrc Hhash (or_intror Hdst)). cbn.
      fold dstid. by rewrite lookup_insert_eq.
Qed.

End Operations.

Section FSM.
Context `{Codec}.

Lemma closed_operation_ne (op o : Operation) :
  op ∉ closedOperations -> o ∈ closedOperations -> op <> o.
Proof. intros Hnot Hin ->. done. Qed.

(** C3, as the code has it: a log entry whose operation is none of the
    closed set makes Apply return nil, not an error value; the store is left
    as it was and the OnApply callback does not run. *)
Theorem Apply_unknown_operation (clock : nat -> Time) (entry : Log) (s : store)
    (c : Command) :
  Unmarshal_Command (Log_Data entry) = Some c ->
  Operation_ c ∉ closedOperations ->
  Apply clock entry s = {| ret := None; st := s; notified := None |}.
Proof.
  intros Hdec Hnot. unfold Apply. rewrite Hdec. cbn zeta.
  pose proof (fun o => closed_operation_ne _ o Hnot) as Hne.
  unfold closedOperations in Hne.
  rewrite !bool_decide_eq_false_2; [done | apply Hne ..];
    unfold OpAddProcess, OpRemoveProcess, OpUpdateProcess, OpSetProcessMetadata,
      OpAddIdentity, OpUpdateIdentity, OpRemoveIdentity, OpSetPolicies;
    rewrite !elem_of_cons; tauto.
Qed.

(** An entry that does not decode is answered with an error, the store
    unchanged. *)
Lemma Apply_invalid_entry (clock : nat -> Time) (entry : Log) (s : store) :
  Unmarshal_Command (Log_Data entry) = None ->
  Apply clock entry s
  = {| ret := Some (errInvalidLogEntry (Index entry) (Term entry));
       st := s; notified := None |}.
Proof. intros Hdec. unfold Apply. by rewrite Hdec. Qed.

(** Apply keeps the process map keyed. *)
Lemma Apply_keyed (clock : nat -> Time) (entry : Log) (s : store) :
  keyed s -> keyed (st (Apply clock entry s)).
Proof.
  intros Hs.
  assert (Hfinish : forall op r, keyed r.2 -> keyed (st (finish op r))).
  { intros op [[err |] s'] Hr; exact Hr. }
  unfold Apply. case_match; [| done]. cbn zeta.
  repeat case_bool_decide; try apply Hfinish; try done.
  - by apply addProcess_keyed.
  - by apply removeProcess_keyed.
  - by apply updateProcess_keyed.
  - by apply setProcessMetadata_keyed.
  - unfold addIdentity. by case_match.
  - unfold updateIdentity. repeat case_match; done.
Qed.

Lemma lookup_Restore_Process (doc : Document) (s : store) (k : string) :
  store_Process (Restore doc s) !! k
  = normalize <$> (doc_Process doc ∪ store_Process s) !! k.
Proof. unfold Restore. cbn. by rewrite lookup_fmap. Qed.

(** A process of the store that the snapshot does not have survives
    Restore. *)
Lemma Restore_keeps_other_keys (doc : Document) (s : store) (k : string) :
  doc_Process doc !! k = None ->
  store_Process (Restore doc s) !! k = normalize <$> store_Process s !! k.
Proof.
  intros Hk. rewrite lookup_Restore_Process.
  by rewrite lookup_union_r.
Qed.

(** X13: restoring a snapshot into a store whose maps are empty gives the
    state the snapshot was taken of, nil metadata maps read as empty
    ones. *)
Lemma Restore_Snapshot_empty (s t : store) :
  store_Process t = ∅ ->
  Users_Users (store_Users t) = ∅ ->
  Policies_Policies (store_Policies t) = ∅ ->
  canonicalJSON (Restore (Snapshot s) t) = normalizeDocument (canonicalJSON s).
Proof.
  intros Hp Hu Hq. unfold Restore, Snapshot, canonicalJSON, normalizeDocument, Decode.
  cbn. rewrite Hp, Hu, Hq. rewrite !(right_id_L ∅ (∪)).
  by destruct (store_Users s), (store_Policies s).
Qed.

(** Restoring a store from its own snapshot changes nil metadata maps
    only. *)
Lemma Restore_Snapshot_self (s : store) :
  canonicalJSON (Restore (Snapshot s) s) = normalizeDocument (canonicalJSON s).
Proof.
  unfold Restore, Snapshot, canonicalJSON, normalizeDocument, Decode. cbn.
  rewrite !(idemp_L (∪)).
  by destruct (store_Users s), (store_Policies s).
Qed.

End FSM.
End StoreSpec.

(** * The store on concrete data *)
Module StoreExamples.
Import GoTime Store StoreSpec Fixture HashFixture.

#[local] Existing Instance Fixture.app.
#[local] Existing Instance Fixture.codec.



(** C10 on the same store: p1 was created at 10 and has one metadata entry;
    after the update neither is left. *)
Lemma updateProcess_resets_record_witness :
  exists r,
    store_Process (updateProcess 99 (updateTo "p1" (mkConfig "p1" "v2")) twoProcesses).2
      !! "p1@" = Some r
    /\ CreatedAt r = zero
    /\ Metadata r = None
    /\ Config r = mkConfig "p1" "v2"
    /\ UpdatedAt r = 99.
Proof.
  apply (updateProcess_resets_record 99 (updateTo "p1" (mkConfig "p1" "v2"))
           twoProcesses (stored "p1" "" 10)).
  - reflexivity.
  - differ.
  - reflexivity.
Defined.

Lemma frobnicate_not_closed : "frobnicate" ∉ closedOperations.
Proof.
  unfold closedOperations. rewrite !elem_of_cons, elem_of_nil.
  intros Hin. repeat (destruct Hin as [Hin | Hin]; [discriminate Hin |]). exact Hin.
Qed.

(** C3 on an entry whose operation is "frobnicate". *)
Lemma Apply_unknown_operation_witness :
  Apply clock (entry "frobnicate") twoProcesses
  = {| ret := None; st := twoProcesses; notified := None |}.
Proof.
  apply (Apply_unknown_operation clock (entry "frobnicate") twoProcesses
           {| Operation_ := "frobnicate"; Data := None |}).
  - reflexivity.
  - exact frobnicate_not_closed.
Defined.

(** C3 as the specification words it fails: for an operation outside the closed set
    Apply returns no error value. *)
Lemma Apply_unknown_operation_is_no_error :
  Unmarshal_Command (Log_Data (entry "frobnicate"))
  = Some {| Operation_ := "frobnicate"; Data := None |}
  /\ ("frobnicate" ∉ closedOperations)
  /\ ~ (exists err, ret (Apply clock (entry "frobnicate") twoProcesses) = Some err).
Proof.
  split; [reflexivity |]. split; [exact frobnicate_not_closed |].
  intros [err Herr]. vm_compute in Herr. discriminate.
Qed.

(** C4 where the code departs from the specification: the store holds p1 and p2,
    the snapshot was taken of a state without p1.  After Restore p1 is
    still there, and the canonical JSON is not that of the snapshot. *)
Lemma Restore_keeps_removed_process :
  store_Process onlyP2 !! "p1@" = None
  /\ store_Process (Restore (Snapshot onlyP2) twoProcesses) !! "p1@"
     = Some (stored "p1" "" 10)
  /\ canonicalJSON (Restore (Snapshot onlyP2) twoProcesses)
     <> normalizeDocument (canonicalJSON onlyP2).
Proof.
  split; [reflexivity |]. split; [reflexivity |].
  intros Heq.
  apply (f_equal (fun d => doc_Process d !! "p1@")) in Heq.
  vm_compute in Heq. discriminate.
Qed.

End StoreExamples.

(** * Properties of the cluster coordinator *)
Module ClusterSpec.
Import GoTime Cluster.

Section FileIndex.
Context {node : Type} (getURL : node -> string -> option string).

Lemma GetURL_error now path (c : cluster node) url err :
  GetURL getURL now path c = (url, Some err) ->
  url = "" /\ err = errFileNotFound.
Proof.
  unfold GetURL. intros Hget.
  repeat (case_match; simplify_eq); done.
Qed.

(** C5: GetURL returns a URL only for a path that the index maps to a node
    which has a last update no more than two seconds old, is a known node
    and builds a URL for the path.  A path that is not mapped, an owner
    without last update, an update older than two seconds and an unknown
    node all give the not-found error; no other error is returned. *)
Theorem GetURL_fresh_or_not_found (now : Time) (path : string) (c : cluster node) :
  (forall url, GetURL getURL now path c = (url, None) ->
     exists id ts n,
       fileid c !! path = Some id
       /\ idupdate c !! id = Some ts
       /\ Since now ts <= 2 * Second
       /\ nodes c !! id = Some n
       /\ getURL n path = Some url)
  /\ (forall url err, GetURL getURL now path c = (url, Some err) ->
        url = "" /\ err = errFileNotFound)
  /\ (fileid c !! path = None ->
        GetURL getURL now path c = ("", Some errFileNotFound))
  /\ (forall id, fileid c !! path = Some id ->
        (idupdate c !! id = None ->
           GetURL getURL now path c = ("", Some errFileNotFound))
        /\ (forall ts, idupdate c !! id = Some ts -> 2 * Second < Since now ts ->
              GetURL getURL now path c = ("", Some errFileNotFound))
        /\ (nodes c !! id = None ->
              GetURL getURL now path c = ("", Some errFileNotFound))).
Proof.
  split; [| split; [| split]].
  - intros url. unfold GetURL.
    destruct (fileid c !! path) as [id |] eqn:Hid; [| done].
    destruct (idupdate c !! id) as [ts |] eqn:Hts; [| done].
    destruct (2 * Second <? Since now ts) eqn:Hage; [done |].
    destruct (nodes c !! id) as [n |] eqn:Hn; [| done].
    destruct (getURL n path) as [u |] eqn:Hu; [| done].
    intros [= <-]. exists id, ts, n.
    apply Z.ltb_ge in Hage. done.
  - apply GetURL_error.
  - intros Hid. unfold GetURL. by rewrite Hid.
  - intros id Hid. unfold GetURL. rewrite Hid. split; [| split].
    + by intros ->.
    + intros ts -> Hage. apply Z.ltb_lt in Hage. by rewrite Hage.
    + intros Hn. destruct (idupdate c !! id) as [ts |]; [| done].
      destruct (2 * Second <? Since now ts); [done |]. by rewrite Hn.
Qed.

(** The three maps after a "connected" update: the reported files are owned
    by the node and its last update is the one of the update, but the list
    kept for the node is the one it had before the update. *)
Lemma addFiles_lookup id files (m : gmap string string) f :
  addFiles id files m !! f = if bool_decide (f ∈ files) then Some id else m !! f.
Proof.
  unfold addFiles. revert m. induction files as [| g files IH]; intros m; cbn.
  - rewrite bool_decide_eq_false_2; [done | apply not_elem_of_nil].
  - rewrite IH. destruct (decide (f ∈ files)) as [Hin | Hnin].
    + rewrite !bool_decide_eq_true_2; [done | by right | done].
    + rewrite (bool_decide_eq_false_2 (f ∈ files)) by done.
      destruct (decide (f = g)) as [-> | Hne].
      * rewrite bool_decide_eq_true_2 by left. by rewrite lookup_insert_eq.
      * rewrite bool_decide_eq_false_2.
        -- by rewrite lookup_insert_ne.
        -- rewrite elem_of_cons. tauto.
Qed.

Lemma update_connected (state : NodeState) (c : cluster node) :
  State state = "connected" ->
  (forall f, f ∈ Files state -> fileid (update state c) !! f = Some (ID state))
  /\ idupdate (update state c) !! ID state = Some (LastUpdate state)
  /\ idfiles (update state c) !! ID state = Some (default [] (idfiles c !! ID state)).
Proof.
  intros Hst. unfold update. rewrite bool_decide_eq_true_2 by done. cbn.
  split; [| split].
  - intros f Hf. rewrite addFiles_lookup. by rewrite bool_decide_eq_true_2.
  - by rewrite lookup_insert_eq.
  - by rewrite lookup_insert_eq.
Qed.

Lemma update_listsEmpty (state : NodeState) (c : cluster node) :
  listsEmpty c -> listsEmpty (update state c).
Proof.
  intros Hc id files. unfold update.
  assert (Hold : default [] (idfiles c !! ID state) = []).
  { destruct (idfiles c !! ID state) as [l |] eqn:Hl; [| done]. cbn. by eapply Hc. }
  rewrite Hold. case_bool_decide; cbn.
  - destruct (decide (ID state = id)) as [<- | Hne].
    + rewrite lookup_insert_eq. by intros [= <-].
    + rewrite lookup_insert_ne by done. rewrite lookup_delete_ne by done. apply Hc.
  - destruct (decide (ID state = id)) as [<- | Hne].
    + by rewrite lookup_delete_eq.
    + rewrite lookup_delete_ne by done. apply Hc.
Qed.

(** Starting from such an index the goroutine never records a file list:
    the lists it stores are the ones it found. *)
Lemma consume_listsEmpty (states : list NodeState) (c : cluster node) :
  listsEmpty c -> listsEmpty (consume states c).
Proof.
  unfold consume. revert c. induction states as [| state states IH]; intros c Hc.
  - done.
  - cbn. apply IH. by apply update_listsEmpty.
Qed.

(** Then no update removes a path from the path-to-node map either. *)
Lemma update_keeps_paths (state : NodeState) (c : cluster node) (f : string) :
  listsEmpty c ->
  is_Some (fileid c !! f) -> is_Some (fileid (update state c) !! f).
Proof.
  intros Hc Hf. unfold update.
  assert (Hold : default [] (idfiles c !! ID state) = []).
  { destruct (idfiles c !! ID state) as [l |] eqn:Hl; [| done]. cbn. by eapply Hc. }
  rewrite Hold. cbn. case_bool_decide; cbn; [| done].
  rewrite addFiles_lookup. by case_bool_decide.
Qed.

End FileIndex.

Section Sentinel.
Variable ParseDuration : string -> option Duration.

(** What a tick sends, and the flag it leaves. *)
Lemma sentinelTick_signal (now : Time) (stats : gmap string string) (s : sentinelState) :
  ((sentinelTick ParseDuration now stats s).2 = Some true <->
     10 * Second < lastContactSince (sentinelTick ParseDuration now stats s).1
     /\ isEmergencyLeader s = false)
  /\ ((sentinelTick ParseDuration now stats s).2 = Some false <->
       lastContactSince (sentinelTick ParseDuration now stats s).1 <= 10 * Second
       /\ isEmergencyLeader s = true)
  /\ isEmergencyLeader (sentinelTick ParseDuration now stats s).1
     = match (sentinelTick ParseDuration now stats s).2 with
       | Some b => b
       | None => isEmergencyLeader s
       end.
Proof.
  unfold sentinelTick.
  destruct (if bool_decide (default "" (stats !! "last_contact") = "never")
            then (Since now (start s), start s)
            else match ParseDuration (default "" (stats !! "last_contact")) with
                 | Some d => (d, now)
                 | None => (Since now (start s), start s)
                 end) as [since start'].
  destruct (10 * Second <? since) eqn:Hgt;
    destruct (since <=? 10 * Second) eqn:Hle;
    destruct (isEmergencyLeader s) eqn:Hflag; cbn;
    try apply Z.ltb_lt in Hgt; try apply Z.ltb_ge in Hgt;
    try apply Z.leb_le in Hle; try apply Z.leb_gt in Hle;
    repeat split; try done; try lia; intros [? ?]; try done; lia.
Qed.

Lemma alternating_cons (b : bool) (l : list bool) :
  firstIs (negb b) l -> alternating l -> alternating (b :: l).
Proof.
  destruct l as [| x l]; [done |]. cbn. intros -> Halt.
  split; [by destruct b | done].
Qed.

(** From any state of the loop the signals alternate, and the first one
    is the opposite of the flag. *)
Lemma sentinelRun_alternating (ticks : list (Time * gmap string string))
    (s : sentinelState) :
  alternating (sentinelRun ParseDuration ticks s).2
  /\ firstIs (negb (isEmergencyLeader s)) (sentinelRun ParseDuration ticks s).2.
Proof.
  revert s. induction ticks as [| [now stats] rest IH]; intros s; [done |].
  cbn [sentinelRun].
  pose proof (sentinelTick_signal now stats s) as (Hforce & Hrelease & Hflag).
  destruct (sentinelTick ParseDuration now stats s) as [s1 sig].
  specialize (IH s1). destruct (sentinelRun ParseDuration rest s1) as [s2 sigs]. cbn in *.
  destruct IH as [Halt Hfirst]. destruct sig as [b |].
  - rewrite Hflag in Hfirst. split; [by apply alternating_cons |].
    cbn. destruct b.
    + destruct Hforce as [Hforce _]. destruct (Hforce eq_refl) as [_ ->]. done.
    + destruct Hrelease as [Hrelease _]. destruct (Hrelease eq_refl) as [_ ->]. done.
  - by rewrite Hflag in Hfirst.
Qed.

(** C8: on a tick the sentinel sends the force-leadership signal exactly
    when the last-contact duration of that tick exceeds ten seconds and it
    is not in the emergency state, and the release signal exactly when the
    duration is at most ten seconds and it is in the emergency state.  The
    signals of a run of the loop therefore alternate, no two neighbours are
    of the same kind, and the first one forces leadership. *)
Theorem sentinel_hysteresis :
  (forall (now : Time) (stats : gmap string string) (s : sentinelState),
     ((sentinelTick ParseDuration now stats s).2 = Some true <->
        10 * Second < lastContactSince (sentinelTick ParseDuration now stats s).1
        /\ isEmergencyLeader s = false)
     /\ ((sentinelTick ParseDuration now stats s).2 = Some false <->
          lastContactSince (sentinelTick ParseDuration now stats s).1 <= 10 * Second
          /\ isEmergencyLeader s = true))
  /\ (forall (ticks : list (Time * gmap string string)) (now0 : Time),
        alternating (sentinelRun ParseDuration ticks (sentinelStart now0)).2
        /\ firstIs true (sentinelRun ParseDuration ticks (sentinelStart now0)).2).
Proof.
  split.
  - intros now stats s.
    pose proof (sentinelTick_signal now stats s) as (Hforce & Hrelease & _). done.
  - intros ticks now0. apply (sentinelRun_alternating ticks (sentinelStart now0)).
Qed.

End Sentinel.

Section Coordinator.
Context `{Store.App}.
Variable ErrDegraded : error.
Variable env : Env.

(** C9: on the leader, leaving with the id of the local node (given as
    such or left empty) while the raft configuration has at most one server
    returns nil, whatever the fuel, after reading the configuration and
    nothing else: no leadership transfer, no forwarding, no command for
    raft, no server removed. *)
Theorem Leave_single_server_noop (fuel : nat) (c : coordinator)
    (origin id0 : string) (servers : list Server) :
  IsRaftLeader env 0%nat = true ->
  id0 = id c \/ id0 = "" ->
  raft_GetConfiguration env 0%nat = inr servers ->
  (List.length servers <= 1)%nat ->
  Leave env fuel c origin id0 = Some (None, [EvGetConfiguration])
  /\ forall tr, Leave env fuel c origin id0 = Some (None, tr) ->
       Forall (fun e => mutating e = false) tr.
Proof.
  intros Hleader Hid Hconf Hone.
  assert (Hret : Leave env fuel c origin id0 = Some (None, [EvGetConfiguration])).
  { unfold Leave. rewrite Hleader, Hconf. cbn.
    assert (Hself : (if bool_decide (String.length id0 = 0%nat) then id c else id0)
                    = id c).
    { destruct Hid as [-> | ->]; [by case_bool_decide | done]. }
    rewrite Hself. rewrite bool_decide_eq_true_2 by done.
    apply Nat.leb_le in Hone. by rewrite Hone. }
  split; [done |].
  intros tr Htr. rewrite Hret in Htr. injection Htr as <-.
  by repeat constructor.
Qed.

(** With two servers or more the leader hands leadership over first. *)
Lemma Leave_self_transfers (fuel : nat) (c : coordinator) (origin : string)
    (servers : list Server) (err : error) :
  IsRaftLeader env 0%nat = true ->
  raft_GetConfiguration env 0%nat = inr servers ->
  (1 < List.length servers)%nat ->
  leadershipTransfer env = Some err ->
  Leave env fuel c origin (id c)
  = Some (Some err, [EvGetConfiguration; EvLeadershipTransfer]).
Proof.
  intros Hleader Hconf Hmany Htransfer. unfold Leave.
  rewrite Hleader, Hconf. cbn.
  assert (Hself : (if bool_decide (String.length (id c) = 0%nat) then id c else id c)
                  = id c) by by case_bool_decide.
  rewrite Hself. rewrite bool_decide_eq_true_2 by done.
  apply Nat.leb_gt in Hmany. rewrite Hmany. by rewrite Htransfer.
Qed.

(** X15: the four identity and policy mutations refuse in degraded mode
    and call neither the forwarder nor raft. *)
Lemma identity_mutations_refuse_degraded (origin name : string)
    (identity : Store.identity_User) (policies : list Store.access_Policy) :
  IsDegraded env = true ->
  AddIdentity ErrDegraded env origin identity = (Some ErrDegraded, [])
  /\ UpdateIdentity ErrDegraded env origin name identity = (Some ErrDegraded, [])
  /\ SetPolicies ErrDegraded env origin name policies = (Some ErrDegraded, [])
  /\ RemoveIdentity ErrDegraded env origin name = (Some ErrDegraded, []).
Proof.
  intros Hdeg. unfold AddIdentity, UpdateIdentity, SetPolicies, RemoveIdentity.
  by rewrite Hdeg.
Qed.

(** [AddProcess] and [SetNodeState] do not read the degraded flag. *)
Lemma AddProcess_on_leader (config : Store.app_Config) :
  IsRaftLeader env 0%nat = true ->
  json_Marshal env {| cmd_Operation := "addProcess"; cmd_Data := DataAddProcess None |}
  = None ->
  (AddProcess env config).2
  = [EvRaftApply {| cmd_Operation := "addProcess"; cmd_Data := DataAddProcess None |}].
Proof.
  intros Hleader Hjson. unfold AddProcess, applyCommand.
  rewrite Hleader, Hjson. cbn. by destruct (raft_Apply env _).
Qed.

End Coordinator.
End ClusterSpec.

(** * Properties of the metrics task *)
Module ProxySpec.
Import GoTime Proxy.

(** The sample a failed query stores in the first critical section. *)
Lemma metricsFailed_sample (n : node) :
  cpu (node_resources (metricsFailed n)) = 100%float
  /\ ncpu (node_resources (metricsFailed n)) = 1%float
  /\ mem (node_resources (metricsFailed n)) = 0.
Proof. done. Qed.

(** The tick goes on after a failed query: what it stores in the end is
    what it stores when the query succeeds with the same metrics. *)
Lemma metricsTick_error_overwritten (now : Time)
    (metrics : list MetricsResponseMetric) (err : error) (n : node) :
  metricsTick now metrics (Some err) n = metricsTick now metrics None n.
Proof. unfold metricsTick. by destruct (readMetrics metrics noSample). Qed.

(** With no metric in the response the sample stored is all zero. *)
Lemma metricsTick_no_metrics (now : Time) (err : option error) (n : node) :
  metricsTick now [] err n
  = Some {| lastContact := now;
            node_resources := {| ncpu := 0; cpu := 0; mem := 0; memTotal := 0 |};
            state := state n;
            latency := latency n |}.
Proof. by destruct err. Qed.

End ProxySpec.

(** * The coordinator and the metrics task on concrete data *)
Module ClusterExamples.
Import GoTime Cluster ClusterSpec Fixture ClusterFixture.

#[local] Existing Instance Fixture.app.

(** C5 on that index: one second after the update the path resolves, by an
    entry that is one second old; three seconds and a nanosecond after it
    the lookup fails. *)
Lemma GetURL_fresh_or_not_found_witness :
  (exists id ts n,
     fileid index !! "mem:/x.m3u8" = Some id
     /\ idupdate index !! id = Some ts
     /\ Since (6 * Second) ts <= 2 * Second
     /\ nodes index !! id = Some n
     /\ getURL n "mem:/x.m3u8" = Some "http://b:8080/mem:/x.m3u8")
  /\ GetURL getURL (8 * Second + 1) "mem:/x.m3u8" index = ("", Some errFileNotFound).
Proof.
  split.
  - apply (GetURL_fresh_or_not_found getURL (6 * Second) "mem:/x.m3u8" index).
    reflexivity.
  - destruct (GetURL_fresh_or_not_found getURL (8 * Second + 1) "mem:/x.m3u8" index)
      as (_ & _ & _ & Hmapped).
    destruct (Hmapped "B" eq_refl) as (_ & Hstale & _).
    apply (Hstale (5 * Second)); [reflexivity | vm_compute; reflexivity].
Defined.

(** C6 where the code departs from the specification.  Node B reports /a, then /b:
    the list kept for B is empty after each update, the entry of /a is
    still in the path map after the second one, and it is still there when
    B is reported disconnected. *)
Lemma update_keeps_stale_entries :
  idfiles (update (connected ["mem:/a"] 100) emptyIndex) !! "B" = Some []
  /\ fileid (consume [connected ["mem:/a"] 100; connected ["mem:/b"] 200] emptyIndex)
       !! "mem:/a" = Some "B"
  /\ idfiles (consume [connected ["mem:/a"] 100; connected ["mem:/b"] 200] emptyIndex)
       !! "B" = Some []
  /\ fileid (consume [connected ["mem:/a"] 100; disconnected 200] emptyIndex)
       !! "mem:/a" = Some "B".
Proof. repeat split; vm_compute; reflexivity. Qed.

(** C2 where the code departs from the specification: in degraded mode AddIdentity
    refuses, while AddProcess hands its command to raft and returns nil,
    and SetNodeState does the same. *)
Lemma AddProcess_ignores_degraded :
  IsDegraded degradedLeader = true
  /\ AddIdentity ErrDegraded degradedLeader "" "alice" = (Some ErrDegraded, [])
  /\ AddProcess degradedLeader (mkConfig "p1" "")
     = (None,
        [EvRaftApply {| cmd_Operation := "addProcess"; cmd_Data := DataAddProcess None |}])
  /\ SetNodeState degradedLeader "" "B" "maintenance"
     = (None,
        [EvRaftApply {| cmd_Operation := "setNodeState";
                        cmd_Data := DataSetNodeState "B" "maintenance" |}]).
Proof. repeat split. Qed.

(** The sentinel started at 0 and never had contact: it forces leadership
    on the first tick past ten seconds, stays silent while the state lasts,
    and releases when a contact five milliseconds old is reported. *)
Example sentinel_run_example :
  (sentinelRun parseDuration
     [ (10 * Second, lastContact "never");
       (10 * Second + 1, lastContact "never");
       (12 * Second, lastContact "never");
       (13 * Second, lastContact "5ms");
       (14 * Second, lastContact "5ms") ]
     (sentinelStart 0)).2
  = [true; false].
Proof. reflexivity. Qed.

(** C9 on a cluster of one: the leader A is asked to leave. *)
Lemma Leave_single_server_noop_witness :
  Leave degradedLeader 0 self "" "A" = Some (None, [EvGetConfiguration]).
Proof.
  apply (Leave_single_server_noop degradedLeader 0 self "" "A"
           [ {| Server_ID := "A"; Server_Address := "127.0.0.1:7000" |} ]).
  - reflexivity.
  - left. reflexivity.
  - reflexivity.
  - cbn. lia.
Defined.

End ClusterExamples.

Module ProxyExamples.
Import GoTime Proxy ProxySpec ProxyFixture.

Lemma float_zero_ne (x : float) : PrimFloat.eqb x 0 = false -> 0%float <> x.
Proof. intros Hx <-. vm_compute in Hx. discriminate. Qed.

(** C7 where the code departs from the specification: the query fails and returns
    no metric.  When the tick is over the stored sample has load 0 on 0
    cores, not load 100 on 1 core. *)
Lemma metricsTick_error_stores_zero :
  metricsTick 200 [] (Some "connection refused") sampled
  = Some {| lastContact := 200;
            node_resources := {| ncpu := 0; cpu := 0; mem := 0; memTotal := 0 |};
            state := stateConnected;
            latency := 0 |}
  /\ (forall n, metricsTick 200 [] (Some "connection refused") sampled = Some n ->
        cpu (node_resources n) <> 100%float /\ ncpu (node_resources n) <> 1%float).
Proof.
  split; [reflexivity |].
  intros n [= <-]. cbn. split; apply float_zero_ne; reflexivity.
Qed.

End ProxyExamples.

(** * More properties of the store *)
Module StoreMore.
Import GoTime Store StoreQueries StoreOps StoreSpec.

Section Operations.
Context `{App}.

Lemma addProcess_atomic now cmd s : atomic (addProcess now cmd s) s.
Proof. unfold atomic, addProcess. by case_match. Qed.

Lemma removeProcess_atomic cmd s : atomic (removeProcess cmd s) s.
Proof. unfold atomic, removeProcess. by case_match. Qed.

Lemma updateProcess_atomic now cmd s : atomic (updateProcess now cmd s) s.
Proof. unfold atomic, updateProcess. repeat case_match; done. Qed.

Lemma setProcessMetadata_atomic now cmd s : atomic (setProcessMetadata now cmd s) s.
Proof. unfold atomic, setProcessMetadata. by case_match. Qed.

Lemma addIdentity_atomic now cmd s : atomic (addIdentity now cmd s) s.
Proof. unfold atomic, addIdentity. by case_match. Qed.

Lemma updateIdentity_atomic now cmd s : atomic (updateIdentity now cmd s) s.
Proof. unfold atomic, updateIdentity. repeat case_match; done. Qed.

Lemma removeIdentity_atomic now1 now2 cmd s :
  atomic (removeIdentity now1 now2 cmd s) s.
Proof. by unfold atomic, removeIdentity. Qed.

Lemma setPolicies_atomic now cmd s : atomic (setPolicies now cmd s) s.
Proof. by unfold atomic, setPolicies. Qed.

End Operations.

Section FSM.
Context `{Codec}.

Lemma finish_error op r s err :
  atomic r s -> ret (finish op r) = Some err ->
  st (finish op r) = s /\ notified (finish op r) = None.
Proof.
  intros [Hatomic _]. unfold finish. destruct r as [[e |] s']; cbn; [| done].
  intros _. split; [by apply (Hatomic e) | done].
Qed.

(** How [Apply] goes through its switch: either the entry does not decode,
    or the operation is unknown, or one operation ran and [finish] closed
    the call. *)
Lemma Apply_cases (clock : nat -> Time) (entry : Log) (s : store) :
  (Unmarshal_Command (Log_Data entry) = None
   /\ Apply clock entry s
      = unchanged s (Some (errInvalidLogEntry (Index entry) (Term entry))))
  \/ (exists c, Unmarshal_Command (Log_Data entry) = Some c
      /\ (Operation_ c ∉ handledOperations)
      /\ Apply clock entry s = unchanged s None)
  \/ (exists c r, Unmarshal_Command (Log_Data entry) = Some c
      /\ Operation_ c ∈ handledOperations
      /\ atomic r s
      /\ (keyed s -> keyed r.2)
      /\ (usersKeyed s -> usersKeyed r.2)
      /\ Apply clock entry s = finish (Operation_ c) r).
Proof.
  unfold Apply. destruct (Unmarshal_Command (Log_Data entry)) as [c |]; [| by left].
  right. cbn zeta. unfold handledOperations.
  repeat case_bool_decide.
  9: { left. exists c. split; [done |]. split; [| done].
       rewrite !elem_of_cons, elem_of_nil. tauto. }
  all: right; exists c; eexists; split; [done |];
    split; [rewrite !elem_of_cons; tauto |];
    split; [| split; [| split; [| reflexivity]]].
  - apply addProcess_atomic.
  - apply addProcess_keyed.
  - unfold addProcess. by case_match.
  - apply removeProcess_atomic.
  - apply removeProcess_keyed.
  - unfold removeProcess. by case_match.
  - apply updateProcess_atomic.
  - apply updateProcess_keyed.
  - unfold updateProcess. repeat case_match; done.
  - apply setProcessMetadata_atomic.
  - apply setProcessMetadata_keyed.
  - unfold setProcessMetadata. by case_match.
  - apply addIdentity_atomic.
  - unfold addIdentity. by case_match.
  - intros Hu. unfold addIdentity. case_match; [done |].
    intros k u. cbn. rewrite lookup_insert_Some.
    intros [[<- <-] | [_ Hk]]; [done | by apply Hu].
  - apply updateIdentity_atomic.
  - unfold updateIdentity. repeat case_match; done.
  - intros Hu. unfold updateIdentity. repeat case_match; try done.
    all: intros k u; cbn; rewrite lookup_insert_Some;
      intros [[<- <-] | [_ Hk]]; [done | by apply Hu].
  - apply removeIdentity_atomic.
  - done.
  - intros Hu k u. cbn. rewrite lookup_delete_Some. intros [_ Hk]. by apply Hu.
  - apply setPolicies_atomic.
  - done.
  - done.
Qed.

(** X1: a log entry that Apply answers with an error has not changed the
    store, and the OnApply callback was not run for it. *)
Theorem Apply_error_leaves_store (clock : nat -> Time) (entry : Log) (s : store)
    (err : StoreError) :
  ret (Apply clock entry s) = Some err ->
  st (Apply clock entry s) = s /\ notified (Apply clock entry s) = None.
Proof.
  destruct (Apply_cases clock entry s)
    as [[_ ->] | [(c & _ & _ & ->) | (c & r & _ & _ & Hatomic & _ & _ & ->)]];
    [done | done |].
  by apply finish_error.
Qed.

(** X2: Apply keeps both maps keyed: every process is stored under the id
    of its config and every identity under its name. *)
Theorem Apply_keeps_keys (clock : nat -> Time) (entry : Log) (s : store) :
  keyed s -> usersKeyed s ->
  keyed (st (Apply clock entry s)) /\ usersKeyed (st (Apply clock entry s)).
Proof.
  intros Hk Hu.
  destruct (Apply_cases clock entry s)
    as [[_ ->] | [(c & _ & _ & ->) | (c & r & _ & _ & _ & Hk' & Hu' & ->)]];
    [done | done |].
  unfold finish. destruct r as [[e |] s']; cbn in *; auto.
Qed.

(** X3: the OnApply callback runs exactly when a callback is installed and
    a known operation succeeded, and it is given the name of that
    operation. *)
Theorem Apply_notifies (clock : nat -> Time) (entry : Log) (s : store)
    (op : Operation) :
  notified (Apply clock entry s) = Some op <->
  (exists c, Unmarshal_Command (Log_Data entry) = Some c
     /\ Operation_ c = op
     /\ op ∈ handledOperations
     /\ ret (Apply clock entry s) = None
     /\ callback s = true).
Proof.
  destruct (Apply_cases clock entry s)
    as [[Hdec ->] | [(c & Hdec & Hop & ->) | (c & r & Hdec & Hop & Hatomic & _ & _ & ->)]].
  - split; [done |]. intros (c & Hc & _). congruence.
  - split; [done |]. intros (c' & Hc' & <- & Hin & _). congruence.
  - destruct Hatomic as [_ Hcb]. unfold finish.
    destruct r as [[e |] s']; cbn in *.
    + split; [done |]. intros (_ & _ & _ & _ & Hret & _). done.
    + rewrite Hcb. split.
      * destruct (callback s); [| done]. intros [= <-]. by exists c.
      * intros (c' & Hc' & <- & _ & _ & ->). congruence.
Qed.

End FSM.
End StoreMore.

Module StoreLaws.
Import GoTime Store StoreQueries StoreOps StoreSpec.

Section Laws.
Context `{App}.
Variable Clone : app_Config -> app_Config.

(** X4: adding a process under a free id and removing that id again gives
    back the store as it was. *)
Theorem addProcess_removeProcess (now : Time) (add : CommandAddProcess)
    (remove : CommandRemoveProcess) (s : store) :
  let id := ProcessID_String (Config_ProcessID (AddProcess_Config add)) in
  store_Process s !! id = None ->
  ProcessID_String (RemoveProcess_ID remove) = id ->
  (addProcess now add s).1 = None
  /\ removeProcess remove (addProcess now add s).2 = (None, s).
Proof.
  intros id Hfree Hid. unfold addProcess. fold id. rewrite Hfree. cbn.
  split; [done |]. unfold removeProcess. rewrite Hid. cbn.
  rewrite lookup_insert_eq. cbn. rewrite delete_insert_id by done.
  by destruct s.
Qed.

(** X5: a process that was added is found under the id of its config, with
    both times the time of the call, an empty metadata map and a clone of
    the config; and its id cannot be added a second time: the second call
    fails with the already-exists error and changes nothing. *)
Theorem addProcess_once (now now' : Time) (cmd cmd' : CommandAddProcess) (s : store) :
  let pid := Config_ProcessID (AddProcess_Config cmd) in
  (addProcess now cmd s).1 = None ->
  ProcessID_String (Config_ProcessID (AddProcess_Config cmd')) = ProcessID_String pid ->
  GetProcess Clone pid (addProcess now cmd s).2
  = inl {| CreatedAt := now;
           UpdatedAt := now;
           Config := Clone (AddProcess_Config cmd);
           Metadata := Some ∅ |}
  /\ addProcess now' cmd' (addProcess now cmd s).2
     = (Some (errProcessExists (ProcessID_String pid)), (addProcess now cmd s).2).
Proof.
  intros pid Hok Hid. unfold addProcess in *. fold pid in Hok |- *.
  destruct (store_Process s !! ProcessID_String pid) eqn:Hfree; [done |]. cbn.
  split.
  - unfold GetProcess. cbn. by rewrite lookup_insert_eq.
  - rewrite Hid. cbn. by rewrite lookup_insert_eq.
Qed.

(** X6: setting a metadata key of a stored process makes the key read as
    the data given (absent when the data is nil), leaves the other keys,
    the config and the creation time as they were, sets [UpdatedAt], and
    leaves a metadata map that is not nil; no other process changes. *)
Theorem setProcessMetadata_sets_key (now : Time) (cmd : CommandSetProcessMetadata)
    (s : store) (p : Process) :
  let id := ProcessID_String (SetProcessMetadata_ID cmd) in
  store_Process s !! id = Some p ->
  (setProcessMetadata now cmd s).1 = None
  /\ (exists p' m,
        store_Process (setProcessMetadata now cmd s).2 !! id = Some p'
        /\ Metadata p' = Some m
        /\ m !! SetProcessMetadata_Key cmd = SetProcessMetadata_Data cmd
        /\ (forall k, k <> SetProcessMetadata_Key cmd ->
              m !! k = default ∅ (Metadata p) !! k)
        /\ CreatedAt p' = CreatedAt p
        /\ Config p' = Config p
        /\ UpdatedAt p' = now)
  /\ (forall k, k <> id ->
        store_Process (setProcessMetadata now cmd s).2 !! k = store_Process s !! k).
Proof.
  intros id Hp. unfold setProcessMetadata. fold id. rewrite Hp. cbn.
  split; [done |]. split.
  - eexists. eexists. rewrite lookup_insert_eq. split; [done |]. cbn.
    split; [done |]. split; [| split; [| done]].
    + destruct (SetProcessMetadata_Data cmd).
      * by rewrite lookup_insert_eq.
      * by rewrite lookup_delete_eq.
    + intros k Hk. destruct (Metadata p), (SetProcessMetadata_Data cmd); cbn.
      all: first [by rewrite lookup_insert_ne | by rewrite lookup_delete_ne].
  - intros k Hk. by rewrite lookup_insert_ne.
Qed.

(** X7: setPolicies replaces all policies of a name: afterwards the
    policies listed for the name are exactly the ones given, dated with the
    call; the policies of every other name and the users are as before. *)
Theorem setPolicies_replaces (now : Time) (cmd : CommandSetPolicies) (s : store) :
  (setPolicies now cmd s).1 = None
  /\ PolicyUserList (SetPolicies_Name cmd) (setPolicies now cmd s).2
     = {| policies_UpdatedAt := now; policies_Policies := SetPolicies_Policies cmd |}
  /\ (forall other, other <> SetPolicies_Name cmd ->
        policies_Policies (PolicyUserList other (setPolicies now cmd s).2)
        = policies_Policies (PolicyUserList other s))
  /\ store_Users (setPolicies now cmd s).2 = store_Users s
  /\ store_Process (setPolicies now cmd s).2 = store_Process s.
Proof.
  unfold setPolicies, PolicyUserList. cbn. split; [done |]. split.
  - by rewrite lookup_insert_eq.
  - split; [| done]. intros other Hother.
    rewrite lookup_insert_ne by done. by rewrite lookup_delete_ne.
Qed.

(** X8: removeIdentity never fails, also for a name that is not stored.
    Afterwards the name has neither a user nor policies, so ListIdentity
    answers not found; the other names keep their user and policies, and
    the processes are untouched. *)
Theorem removeIdentity_purges (now1 now2 : Time) (cmd : CommandRemoveIdentity)
    (s : store) :
  let s' := (removeIdentity now1 now2 cmd s).2 in
  (removeIdentity now1 now2 cmd s).1 = None
  /\ users_Users (GetUser (RemoveIdentity_Name cmd) s') = []
  /\ policies_Policies (PolicyUserList (RemoveIdentity_Name cmd) s') = []
  /\ ListIdentity (RemoveIdentity_Name cmd) s' = inr "not found"
  /\ (forall other, other <> RemoveIdentity_Name cmd ->
        users_Users (GetUser other s') = users_Users (GetUser other s)
        /\ policies_Policies (PolicyUserList other s')
           = policies_Policies (PolicyUserList other s))
  /\ store_Process s' = store_Process s.
Proof.
  unfold removeIdentity, ListIdentity, GetUser, PolicyUserList. cbn.
  rewrite !lookup_delete_eq. repeat split; try done.
  - by rewrite lookup_delete_ne.
  - by rewrite lookup_delete_ne.
Qed.

(** X9: updateIdentity of a name that is not stored changes nothing and
    returns nil.  Of a stored name: with the same name in the identity, the
    identity is overwritten; with a new name that is free, the identity is
    stored under the new name and the entry under the old name stays as it
    was; with a new name that is taken, the call fails with the
    already-exists error and changes nothing. *)
Theorem updateIdentity_contract (now : Time) (cmd : CommandUpdateIdentity) (s : store) :
  let old := UpdateIdentity_Name cmd in
  let new := User_Name (UpdateIdentity_Identity cmd) in
  let users := Users_Users (store_Users s) in
  let users' := Users_Users (store_Users (updateIdentity now cmd s).2) in
  (users !! old = None -> updateIdentity now cmd s = (None, s))
  /\ (forall u, users !! old = Some u ->
        (old = new \/ users !! new = None ->
           (updateIdentity now cmd s).1 = None
           /\ users' !! new = Some (UpdateIdentity_Identity cmd)
           /\ (old <> new -> users' !! old = Some u)
           /\ (forall k, k <> new -> users' !! k = users !! k)
           /\ Users_UpdatedAt (store_Users (updateIdentity now cmd s).2) = now)
        /\ (old <> new -> is_Some (users !! new) ->
              updateIdentity now cmd s = (Some (errIdentityExists new), s))).
Proof.
  intros old new users users'. subst users'. unfold updateIdentity.
  fold old new users. split; [by intros -> |].
  intros u Hold. rewrite Hold. split.
  - intros Hfree. case_bool_decide as Heq.
    + cbn. rewrite lookup_insert_eq. repeat split; try done.
      intros k Hk. by rewrite lookup_insert_ne.
    + destruct Hfree as [? | ->]; [done |]. cbn.
      rewrite lookup_insert_eq. repeat split; try done.
      * intros _. by rewrite lookup_insert_ne.
      * intros k Hk. by rewrite lookup_insert_ne.
  - intros Hne [v ->]. by rewrite bool_decide_eq_false_2.
Qed.

(** X10: an identity that was added is listed under its name, dated with
    the call, and its name cannot be added a second time: the second call
    fails with the already-exists error and changes nothing. *)
Theorem addIdentity_once (now now' : Time) (cmd cmd' : CommandAddIdentity) (s : store) :
  let name := User_Name (AddIdentity_Identity cmd) in
  (addIdentity now cmd s).1 = None ->
  User_Name (AddIdentity_Identity cmd') = name ->
  ListIdentity name (addIdentity now cmd s).2 = inl (now, AddIdentity_Identity cmd)
  /\ addIdentity now' cmd' (addIdentity now cmd s).2
     = (Some (errIdentityExists name), (addIdentity now cmd s).2).
Proof.
  intros name Hok Hname. unfold addIdentity in *. fold name in Hok |- *.
  destruct (Users_Users (store_Users s) !! name) eqn:Hfree; [done |]. cbn.
  split.
  - unfold ListIdentity, GetUser. cbn. by rewrite lookup_insert_eq.
  - rewrite Hname. cbn. by rewrite lookup_insert_eq.
Qed.

(** ProcessList has one record for every key of the process map, and
    its records are the stored ones, configs cloned. *)
Theorem ProcessList_complete (s : store) :
  List.length (ProcessList Clone s) = size (store_Process s)
  /\ (forall p, p ∈ ProcessList Clone s <->
        exists k q, store_Process s !! k = Some q /\ p = export Clone q).
Proof.
  unfold ProcessList. split.
  - rewrite length_fmap. apply length_map_to_list.
  - intros p. rewrite list_elem_of_fmap. split.
    + intros [[k q] [-> Hin]]. apply elem_of_map_to_list in Hin. by exists k, q.
    + intros (k & q & Hq & ->). exists (k, q). split; [done |].
      by apply elem_of_map_to_list.
Qed.

End Laws.

Section Snapshots.
Context `{Codec}.

Lemma normalize_idemp (p : Process) : normalize (normalize p) = normalize p.
Proof.
  unfold normalize. destruct (Metadata p) eqn:Hm; [by rewrite Hm | done].
Qed.

(** X12: restoring the same snapshot a second time changes nothing. *)
Theorem Restore_idempotent (doc : Document) (s : store) :
  Restore doc (Restore doc s) = Restore doc s.
Proof.
  unfold Restore, Decode, set_Process. cbn. f_equal.
  - apply map_eq. intros k. rewrite !lookup_fmap, !lookup_union, !lookup_fmap.
    rewrite lookup_union.
    destruct (doc_Process doc !! k), (store_Process s !! k); cbn;
      by rewrite ?normalize_idemp.
  - f_equal. apply map_eq. intros k. rewrite !lookup_union.
    by destruct (Users_Users (doc_Users doc) !! k), (Users_Users (store_Users s) !! k).
  - f_equal. apply map_eq. intros k. rewrite !lookup_union.
    by destruct (Policies_Policies (doc_Policies doc) !! k),
      (Policies_Policies (store_Policies s) !! k).
Qed.

End Snapshots.
End StoreLaws.

(** * Restore and the error of the decoder *)
Module StoreRestoreSpec.
Import GoTime Store StoreRestore.

Section Restore.
Context `{App}.

(** On a snapshot that decodes, Restore with the error of the decoder is
    [Store.Restore] and returns nil. *)
Lemma Restore_decodes (doc : Document) (s : store) :
  Restore (decodes doc) s = (None, Store.Restore doc s).
Proof. reflexivity. Qed.

(** X11: Restore returns the error of the decoder.  After a Restore that
    returned nil no process of the store has a nil metadata map, whether
    it came from the snapshot or was in the store before.  A Restore that
    returned an error has not run its loop: the store is as the decoder
    left it, so a process decoded with a nil metadata map keeps it. *)
Theorem Restore_no_nil_metadata (d : Decoding) (s : store) :
  (Restore d s).1 = decodeError d
  /\ ((Restore d s).1 = None ->
      forall k p, store_Process (Restore d s).2 !! k = Some p ->
                  is_Some (Metadata p))
  /\ (is_Some (Restore d s).1 ->
      (Restore d s).2 = Decode (decoded d) s
      /\ forall k p, doc_Process (decoded d) !! k = Some p ->
                     store_Process (Restore d s).2 !! k = Some p).
Proof.
  unfold Restore. destruct (decodeError d) as [err |]; cbn.
  - split; [done |]. split; [done |]. intros _. split; [done |].
    intros k p Hk. by apply lookup_union_Some_l.
  - split; [done |]. split; [| by intros [? ?]].
    intros _ k p. rewrite lookup_fmap, fmap_Some. intros (q & _ & ->).
    unfold normalize. destruct (Metadata q) eqn:Hq; cbn; [by rewrite Hq | done].
Qed.

End Restore.
End StoreRestoreSpec.

(** * More properties of the coordinator *)
Module ClusterMore.
Import GoTime Store Cluster ClusterSpec Routing.

Section Coordinator.
Context `{App}.
Variable ErrDegraded : error.
Variable env : Env.

Lemma applyCommand_routed (cmd : RaftCommand) :
  IsRaftLeader env 0%nat = true -> routed env (applyCommand env cmd).
Proof.
  intros Hleader. unfold routed, applyCommand.
  repeat case_match; cbn; split; try lia; repeat constructor; done.
Qed.

Lemma forward_routed (call : ForwardCall) :
  IsRaftLeader env 0%nat = false ->
  routed env (forward env call, [EvForward call]).
Proof. intros Hfollower. unfold routed. cbn. split; [lia |]. by repeat constructor. Qed.

Lemma nothing_routed (err : option error) : routed env (err, []).
Proof. unfold routed. cbn. split; [lia | constructor]. Qed.

(** X14: every mutation of the coordinator makes at most one call to the
    outside: it hands one command to raft, and only when it read that this
    node is the leader, or it forwards once, and only when it read that
    this node is not the leader. *)
Theorem mutations_routed (origin name id state : string)
    (identity : identity_User) (policies : list access_Policy)
    (config : app_Config) :
  routed env (AddIdentity ErrDegraded env origin identity)
  /\ routed env (UpdateIdentity ErrDegraded env origin name identity)
  /\ routed env (SetPolicies ErrDegraded env origin name policies)
  /\ routed env (RemoveIdentity ErrDegraded env origin name)
  /\ routed env (AddProcess env config)
  /\ routed env (SetNodeState env origin id state).
Proof.
  unfold AddIdentity, UpdateIdentity, SetPolicies, RemoveIdentity, AddProcess,
    SetNodeState.
  destruct (IsRaftLeader env 0%nat) eqn:Hleader; cbn;
    repeat split; repeat case_match;
    first [apply nothing_routed | by apply forward_routed | by apply applyCommand_routed].
Qed.

(** The loop that waits for the removal only sleeps and reads the
    configuration. *)
Lemma waitRemoved_polls (fuel : nat) (c : coordinator) (limit : Time)
    (tr tr' : list Event) (left : bool) :
  waitRemoved env fuel c limit tr = Some (left, tr') ->
  exists polls, tr' = tr ++ polls /\ Forall (fun e => mutating e = false) polls.
Proof.
  revert tr. induction fuel as [| fuel IH]; intros tr; [done |]. cbn.
  case_match.
  - repeat case_match.
    + intros [= <- <-]. eexists. rewrite <- app_assoc. split; [done |].
      by repeat constructor.
    + intros Hrec. apply IH in Hrec as (polls & -> & Hpolls).
      eexists. rewrite <- !app_assoc. split; [done |].
      by repeat constructor.
    + intros [= <- <-]. eexists. rewrite <- app_assoc. split; [done |].
      by repeat constructor.
  - intros [= <- <-]. exists []. by rewrite app_nil_r.
Qed.

(** While the clock advances with the sleeps, the loop ends within the
    rounds that fit before the limit. *)
Lemma waitRemoved_terminates (n : nat) (c : coordinator) (limit : Time)
    (tr : list Event) :
  sleeps env ->
  limit - Now env (List.length tr) <= Z.of_nat n * (50 * Millisecond) ->
  is_Some (waitRemoved env (S n) c limit tr).
Proof.
  intros Hsleeps. revert tr. induction n as [| n IH]; intros tr Hbound.
  - cbn. unfold Before. destruct (Z.ltb_spec (Now env (List.length tr)) limit); [lia |].
    by eexists.
  - cbn [waitRemoved]. destruct (Before (Now env (List.length tr)) limit); [| by eexists].
    destruct (raft_GetConfiguration env _); [by eexists |].
    case_match; [| by eexists].
    apply IH. rewrite !length_app. cbn.
    replace (List.length tr + 1 + 1)%nat with (S (S (List.length tr))) by lia.
    specialize (Hsleeps (List.length tr)). lia.
Qed.

(** X16: on a node that is not the leader, Leave forwards the request once
    and returns the forwarder's answer: its error, or nil once the request
    went through, also when the node never sees itself removed.  Besides
    forwarding it only sleeps and reads the configuration; and while the
    clock advances with the sleeps it returns within the rounds that fit
    into the grace period. *)
Theorem Leave_follower (fuel : nat) (c : coordinator) (origin id0 : string) :
  let id_ := if bool_decide (String.length id0 = 0%nat) then id c else id0 in
  IsRaftLeader env 0%nat = false ->
  sleeps env ->
  (graceRounds c < fuel)%nat ->
  exists polls,
    Leave env fuel c origin id0
    = Some (forward env (FwdLeave origin id_), EvForward (FwdLeave origin id_) :: polls)
    /\ Forall (fun e => mutating e = false) polls.
Proof.
  intros id_ Hfollower Hsleeps Hfuel. unfold Leave. fold id_.
  rewrite Hfollower. cbn.
  destruct (forward env (FwdLeave origin id_)) as [err |].
  - exists []. by split.
  - destruct fuel as [| n]; [lia |].
    destruct (waitRemoved_terminates n c
                (Add (Now env 1) (raftRemoveGracePeriod c))
                [EvForward (FwdLeave origin id_)] Hsleeps) as [[left tr'] Hwait].
    { cbn. unfold Add, graceRounds in *.
      pose proof (Z.mod_pos_bound (raftRemoveGracePeriod c) (50 * Millisecond)
                    ltac:(unfold Millisecond; lia)) as Hmod.
      pose proof (Z.div_mod (raftRemoveGracePeriod c) (50 * Millisecond)
                    ltac:(unfold Millisecond; lia)) as Hdiv.
      assert (Z.of_nat (Z.to_nat (raftRemoveGracePeriod c / (50 * Millisecond)))
              >= raftRemoveGracePeriod c / (50 * Millisecond)) by lia.
      nia. }
    rewrite Hwait. apply waitRemoved_polls in Hwait as (polls & -> & Hpolls).
    by exists polls.
Qed.

(** X17: on the leader, Leave for another node hands the removeNode command
    to raft, asks raft to remove the server whatever became of the command,
    and returns raft's answer to the removal; it neither forwards nor
    transfers leadership, and needs no fuel. *)
Theorem Leave_other_node (fuel : nat) (c : coordinator) (origin id0 : string)
    (servers : list Server) :
  IsRaftLeader env 0%nat = true ->
  raft_GetConfiguration env 0%nat = inr servers ->
  id0 <> "" -> id0 <> id c ->
  exists evs,
    Leave env fuel c origin id0
    = Some (raft_RemoveServer env id0,
            [EvGetConfiguration] ++ evs ++ [EvRemoveServer id0])
    /\ evs = (RemoveNode env 1 id0).2
    /\ Forall (fun e =>
         e = EvRaftApply {| cmd_Operation := opRemoveNode;
                            cmd_Data := DataRemoveNode id0 |}) evs.
Proof.
  intros Hleader Hconf Hnonempty Hother. unfold Leave.
  rewrite Hleader, Hconf. cbn.
  rewrite (bool_decide_eq_false_2 (String.length id0 = 0%nat)).
  2: { destruct id0; [done | discriminate]. }
  rewrite bool_decide_eq_false_2 by done.
  destruct (RemoveNode env 1 id0) as [err evs] eqn:Hremove.
  exists evs. split; [by destruct (raft_RemoveServer env id0) |].
  split; [done |].
  unfold RemoveNode, applyCommand in Hremove.
  repeat case_match; simplify_eq; by repeat constructor.
Qed.

End Coordinator.
End ClusterMore.

Module IndexMore.
Import GoTime Cluster ClusterSpec Membership SentinelNotions.

Section FileIndex.
Context {node : Type} (getURL : node -> string -> option string).

Lemma deleteFiles_lookup files (m : gmap string string) f :
  deleteFiles files m !! f = if bool_decide (f ∈ files) then None else m !! f.
Proof.
  unfold deleteFiles. revert m. induction files as [| g files IH]; intros m; cbn.
  - rewrite bool_decide_eq_false_2; [done | apply not_elem_of_nil].
  - rewrite IH. destruct (decide (f ∈ files)) as [Hin | Hnin].
    + rewrite !bool_decide_eq_true_2; [done | by right | done].
    + rewrite (bool_decide_eq_false_2 (f ∈ files)) by done.
      destruct (decide (f = g)) as [-> | Hne].
      * rewrite bool_decide_eq_true_2 by left. by rewrite lookup_delete_eq.
      * rewrite bool_decide_eq_false_2.
        -- by rewrite lookup_delete_ne.
        -- rewrite elem_of_cons. tauto.
Qed.

Lemma update_nodes (state : NodeState) (c : cluster node) :
  nodes (update state c) = nodes c.
Proof. unfold update. by case_bool_decide. Qed.

(** X18: an update of a node touches nothing of the other nodes in the
    node-to-files and last-update maps, leaves the registry of nodes alone,
    and changes the owner of no path outside the list kept for the node and
    the list it reports.  When the node is not reported connected, its
    list and its last update are gone. *)
Theorem update_frame (state : NodeState) (c : cluster node) :
  nodes (update state c) = nodes c
  /\ (forall other, other <> ID state ->
        idfiles (update state c) !! other = idfiles c !! other
        /\ idupdate (update state c) !! other = idupdate c !! other)
  /\ (forall f, f ∉ default [] (idfiles c !! ID state) -> f ∉ Files state ->
        fileid (update state c) !! f = fileid c !! f)
  /\ (State state <> "connected" ->
        idfiles (update state c) !! ID state = None
        /\ idupdate (update state c) !! ID state = None).
Proof.
  unfold update. case_bool_decide as Hst; cbn.
  - split; [done |]. split; [| split; [| done]].
    + intros other Hother. rewrite !lookup_insert_ne by done.
      by rewrite !lookup_delete_ne.
    + intros f Hold Hnew. rewrite addFiles_lookup, deleteFiles_lookup.
      by rewrite !bool_decide_eq_false_2.
  - split; [done |]. split; [| split].
    + intros other Hother. by rewrite !lookup_delete_ne.
    + intros f Hold _. rewrite deleteFiles_lookup.
      by rewrite bool_decide_eq_false_2.
    + intros _. by rewrite !lookup_delete_eq.
Qed.

(** X19: a path that a known node has just reported resolves to the URL
    the node builds for it as long as the update is at most two seconds
    old, and is not found once the update is older. *)
Theorem GetURL_after_update (now : Time) (path url : string) (state : NodeState)
    (c : cluster node) (n : node) :
  State state = "connected" ->
  path ∈ Files state ->
  nodes c !! ID state = Some n ->
  getURL n path = Some url ->
  (Since now (LastUpdate state) <= 2 * Second ->
     GetURL getURL now path (update state c) = (url, None))
  /\ (2 * Second < Since now (LastUpdate state) ->
        GetURL getURL now path (update state c) = ("", Some errFileNotFound)).
Proof.
  intros Hst Hpath Hn Hurl.
  destruct (update_connected state c Hst) as (Hfile & Hupd & _).
  unfold GetURL. rewrite (Hfile path Hpath), Hupd.
  rewrite update_nodes. rewrite Hn, Hurl.
  split; intros Hage.
  - apply Z.ltb_ge in Hage. by rewrite Hage.
  - apply Z.ltb_lt in Hage. by rewrite Hage.
Qed.

(** GetFile hands out data exactly for a path that the index maps to
    a known node whose last update is at most two seconds old and that
    opens the file; every failure is the not-found error. *)
Theorem GetFile_fresh {Data : Type} (getFile : node -> string -> option Data)
    (now : Time) (path : string) (c : cluster node) :
  (forall data, GetFile node Data getFile now path c = (Some data, None) <->
     exists id ts n,
       fileid c !! path = Some id
       /\ idupdate c !! id = Some ts
       /\ Since now ts <= 2 * Second
       /\ nodes c !! id = Some n
       /\ getFile n path = Some data)
  /\ (forall r, (GetFile node Data getFile now path c).2 = Some r ->
        GetFile node Data getFile now path c = (None, Some errFileNotFound)).
Proof.
  unfold GetFile. split.
  - intros data. split.
    + intros Hget. repeat case_match; simplify_eq.
      eexists _, _, _. repeat split; try done.
      by apply Z.ltb_ge.
    + intros (id & ts & n & -> & -> & Hage & -> & ->).
      apply Z.ltb_ge in Hage. by rewrite Hage.
  - intros r. repeat case_match; done.
Qed.

End FileIndex.

Section Sentinel.
Variable ParseDuration : string -> option Duration.

(** X20: as long as every tick reports a contact at most ten seconds old,
    a sentinel that is not in the emergency state sends nothing and stays
    out of it. *)
Theorem sentinel_quiet (ticks : list (Time * gmap string string))
    (s : sentinelState) :
  isEmergencyLeader s = false ->
  Forall (inContact ParseDuration) ticks ->
  (sentinelRun ParseDuration ticks s).2 = []
  /\ isEmergencyLeader (sentinelRun ParseDuration ticks s).1 = false.
Proof.
  revert s. induction ticks as [| [now stats] rest IH]; intros s Hflag Hall; [done |].
  apply Forall_cons in Hall as [[Hnever (d & Hparse & Hd)] Hrest]. cbn in *.
  assert (Htick : sentinelTick ParseDuration now stats s
                  = ({| start := now; lastContactSince := d;
                        isEmergencyLeader := false |}, None)).
  { unfold sentinelTick. rewrite bool_decide_eq_false_2 by done.
    rewrite Hparse, Hflag.
    destruct (Z.ltb_spec (10 * Second) d); [lia |]. cbn.
    by rewrite andb_false_r. }
  rewrite Htick.
  specialize (IH {| start := now; lastContactSince := d; isEmergencyLeader := false |}
                eq_refl Hrest).
  destruct (sentinelRun ParseDuration rest _) as [s2 sigs]. cbn in *.
  done.
Qed.

End Sentinel.
End IndexMore.

Module MembershipSpec.
Import GoTime Store Cluster Membership.

Section Join.
Context `{App}.
Variable env : Env.
Variable forwardJoin :
  string -> string -> string -> string -> string -> string -> option error.
Variable raft_AddVoter : string -> string -> option error.

Local Abbreviation removeExisting := (Membership.removeExisting env).
Local Abbreviation Join := (Membership.Join env forwardJoin raft_AddVoter).

Lemma removal_cons id raftAddress srv servers e :
  removal id raftAddress servers e -> removal id raftAddress (srv :: servers) e.
Proof. intros (s & Hin & Hs). exists s. split; [by right | done]. Qed.

(** What the loop over the servers does: it only removes colliding
    servers; it returns from Join only when a server has the id or the
    address, and runs to its end only when no server has both. *)
Lemma removeExisting_spec (id raftAddress : string) (servers : list Server)
    (tr : list JoinEvent) :
  match removeExisting id raftAddress servers tr with
  | inl (err, tr') =>
      exists removes, tr' = tr ++ removes
        /\ Forall (removal id raftAddress servers) removes
        /\ Exists (fun srv => Server_ID srv = id \/ Server_Address srv = raftAddress)
             servers
        /\ (err = None \/
            exists sid e, raft_RemoveServer env sid = Some e
                          /\ err = Some (errRemovingExisting id raftAddress e))
  | inr tr' =>
      exists removes, tr' = tr ++ removes
        /\ Forall (removal id raftAddress servers) removes
        /\ Forall (fun srv => ~ (Server_ID srv = id /\ Server_Address srv = raftAddress))
             servers
        /\ (Forall (fun srv => Server_ID srv <> id /\ Server_Address srv <> raftAddress)
              servers -> removes = [])
  end.
Proof.
  revert tr. induction servers as [| srv rest IH]; intros tr; cbn.
  - exists []. rewrite app_nil_r. repeat split; by constructor.
  - destruct (decide (Server_ID srv = id /\ Server_Address srv = raftAddress))
      as [[Hid Haddr] | Hboth].
    { rewrite !bool_decide_eq_true_2 by done. cbn.
      exists []. rewrite app_nil_r.
      split; [done |]. split; [constructor |]. split; [| by left].
      constructor. by left. }
    destruct (decide (Server_ID srv = id \/ Server_Address srv = raftAddress))
      as [Hone | Hnone].
    + assert (Hcond : bool_decide (Server_ID srv = id)
                      || bool_decide (Server_Address srv = raftAddress) = true).
      { destruct Hone as [Hid | Haddr].
        - by rewrite (bool_decide_eq_true_2 _ Hid).
        - rewrite (bool_decide_eq_true_2 _ Haddr). apply orb_true_r. }
      assert (Hcond2 : bool_decide (Server_ID srv = id)
                       && bool_decide (Server_Address srv = raftAddress) = false).
      { apply andb_false_iff. rewrite !bool_decide_eq_false. tauto. }
      rewrite Hcond, Hcond2.
      assert (Hrem : removal id raftAddress (srv :: rest)
                       (EvBase (EvRemoveServer (Server_ID srv)))).
      { exists srv. split; [by left | done]. }
      destruct (raft_RemoveServer env (Server_ID srv)) as [e |] eqn:Herr.
      * eexists. split; [done |]. split; [by repeat constructor |].
        split; [by constructor |]. right. by exists (Server_ID srv), e.
      * specialize (IH (tr ++ [EvBase (EvRemoveServer (Server_ID srv))])).
        destruct (removeExisting id raftAddress rest _) as [[err tr'] | tr'].
        -- destruct IH as (removes & -> & Hall & Hex & Herrs).
           eexists. rewrite <- app_assoc. split; [done |].
           split; [| split; [by constructor | done]].
           constructor; [done |]. eapply Forall_impl; [done |].
           intros e. apply removal_cons.
        -- destruct IH as (removes & -> & Hall & Hnoboth & _).
           eexists. rewrite <- app_assoc. split; [done |].
           split; [| split].
           ++ constructor; [done |]. eapply Forall_impl; [done |].
              intros e. apply removal_cons.
           ++ by constructor.
           ++ intros Hfresh. apply Forall_cons in Hfresh as [[? ?] _]. tauto.
    + assert (Hcond : bool_decide (Server_ID srv = id)
                      || bool_decide (Server_Address srv = raftAddress) = false).
      { apply orb_false_iff. rewrite !bool_decide_eq_false. tauto. }
      rewrite Hcond. specialize (IH tr).
      destruct (removeExisting id raftAddress rest tr) as [[err tr'] | tr'].
      * destruct IH as (removes & -> & Hall & Hex & Herrs).
        exists removes. split; [done |].
        split; [| split; [by apply Exists_cons_tl | done]].
        eapply Forall_impl; [done |]. intros e. apply removal_cons.
      * destruct IH as (removes & -> & Hall & Hnoboth & Hfresh).
        exists removes. split; [done |]. split; [| split].
        -- eapply Forall_impl; [done |]. intros e. apply removal_cons.
        -- by constructor.
        -- intros Hall'. apply Forall_cons in Hall' as [_ Hrest]. by apply Hfresh.
Qed.

(** X21: when the configuration already has a server with the id and the
    address of the joining node, Join on the leader neither adds a voter
    nor hands a command to raft: after reading the configuration it only
    removes servers that collide with the node in id or address, and it
    returns nil unless such a removal failed. *)
Theorem Join_existing_member
    (origin id raftAddress apiAddress apiUsername apiPassword : string)
    (servers : list Server) (member : Server) :
  IsRaftLeader env 0%nat = true ->
  raft_GetConfiguration env 0%nat = inr servers ->
  member ∈ servers ->
  Server_ID member = id -> Server_Address member = raftAddress ->
  exists removes,
    (Join origin id raftAddress apiAddress apiUsername apiPassword).2
    = EvBase EvGetConfiguration :: removes
    /\ Forall (removal id raftAddress servers) removes
    /\ Forall (fun e => admits e = false)
         (Join origin id raftAddress apiAddress apiUsername apiPassword).2
    /\ ((Join origin id raftAddress apiAddress apiUsername apiPassword).1 = None
        \/ exists sid e,
             raft_RemoveServer env sid = Some e
             /\ (Join origin id raftAddress apiAddress apiUsername apiPassword).1
                = Some (errRemovingExisting id raftAddress e)).
Proof.
  intros Hleader Hconf Hin Hid Haddr. unfold Membership.Join.
  rewrite Hleader, Hconf. cbn.
  pose proof (removeExisting_spec id raftAddress servers [EvBase EvGetConfiguration])
    as Hloop.
  destruct (removeExisting id raftAddress servers _) as [[err tr'] | tr'].
  - destruct Hloop as (removes & -> & Hall & _ & Herr). exists removes. cbn.
    split; [done |]. split; [done |]. split; [| done].
    constructor; [done |]. eapply Forall_impl; [done |].
    by intros e (srv & _ & _ & ->).
  - destruct Hloop as (_ & _ & _ & Hnone & _).
    rewrite Forall_forall in Hnone. by destruct (Hnone member Hin).
Qed.

(** X22: when no server of the configuration has the id or the address of
    the joining node, Join on the leader removes nothing, adds the node as
    a voter and returns raft's answer to that; once the voter is added it
    returns nil whatever becomes of the addNode command. *)
Theorem Join_new_member
    (origin id raftAddress apiAddress apiUsername apiPassword : string)
    (servers : list Server) :
  IsRaftLeader env 0%nat = true ->
  raft_GetConfiguration env 0%nat = inr servers ->
  Forall (fun srv => Server_ID srv <> id /\ Server_Address srv <> raftAddress) servers ->
  (Join origin id raftAddress apiAddress apiUsername apiPassword).1
  = raft_AddVoter id raftAddress
  /\ exists evs,
       (Join origin id raftAddress apiAddress apiUsername apiPassword).2
       = [EvBase EvGetConfiguration; EvAddVoter id raftAddress] ++ (EvBase <$> evs)
       /\ (evs = [] \/
           raft_AddVoter id raftAddress = None
           /\ evs = [EvRaftApply
                       {| cmd_Operation := opAddNode;
                          cmd_Data := DataAddNode id apiAddress apiUsername apiPassword |}]).
Proof.
  intros Hleader Hconf Hfresh. unfold Membership.Join.
  rewrite Hleader, Hconf. cbn.
  pose proof (removeExisting_spec id raftAddress servers [EvBase EvGetConfiguration])
    as Hloop.
  destruct (removeExisting id raftAddress servers _) as [[err tr'] | tr'].
  - destruct Hloop as (_ & _ & _ & Hex & _). exfalso.
    apply Exists_exists in Hex as (srv & Hin & Hone).
    rewrite Forall_forall in Hfresh. destruct (Hfresh srv Hin). tauto.
  - destruct Hloop as (removes & -> & _ & _ & Hnoremove).
    rewrite (Hnoremove Hfresh). cbn.
    destruct (raft_AddVoter id raftAddress) as [err |]; cbn.
    + split; [done |]. exists []. split; [done | by left].
    + destruct (AddNode env 2 id apiAddress apiUsername apiPassword) as [e evs] eqn:Hadd.
      cbn. split; [done |]. exists evs. split; [done |].
      unfold AddNode, applyCommand in Hadd.
      repeat case_match; simplify_eq; first [by left | by right].
Qed.

End Join.
End MembershipSpec.

Module RegistrySpec.
Import GoTime Store Cluster Membership.

Section Registry.
Variable node : Type.
Variable node_ID : node -> string.
Variable node_IPs : node -> list string.
Variable newNode : string -> string -> string -> node + error.

Local Abbreviation AddNodeX := (Membership.AddNodeX node node_ID node_IPs newNode).
Local Abbreviation RemoveNodeX := (Membership.RemoveNodeX node node_IPs).
Local Abbreviation GetNodeX := (Membership.GetNodeX node).

Lemma concat_blocked (ips : list string) :
  concat (blocked node <$> (EvAddBlock node <$> ips)) = ips.
Proof. induction ips as [| ip ips IH]; [done |]. cbn. by rewrite IH. Qed.

Lemma concat_unblocked (ips : list string) :
  concat (unblocked node <$> (EvRemoveBlock node <$> ips)) = ips.
Proof. induction ips as [| ip ips IH]; [done |]. cbn. by rewrite IH. Qed.

(** X23: a node added under an id that is neither the local one nor
    registered is found under its id afterwards, and removing it gives back
    the registry as it was: the IPs that were blocked for it are the ones
    unblocked, in the same order.  Adding a node whose id is registered
    keeps the registered node, stops the new one and blocks no IP. *)
Theorem AddNodeX_RemoveNodeX (self address username password : string)
    (c : cluster node) (n : node) :
  newNode address username password = inl n ->
  node_ID n <> self ->
  (nodes c !! node_ID n = None ->
     let '(r1, c1, evs1) := AddNodeX self address username password c in
     let '(r2, c2, evs2) := RemoveNodeX (node_ID n) c1 in
     r1 = (node_ID n, None)
     /\ GetNodeX (node_ID n) c1 = inl n
     /\ r2 = None
     /\ c2 = c
     /\ GetNodeX (node_ID n) c2 = inr "node not found"
     /\ concat (blocked node <$> evs1) = node_IPs n
     /\ concat (unblocked node <$> evs2) = node_IPs n)
  /\ (forall n0, nodes c !! node_ID n = Some n0 ->
        AddNodeX self address username password c
        = ((node_ID n, None), c, [EvStop node n])).
Proof.
  intros Hnew Hself. unfold Membership.AddNodeX, Membership.RemoveNodeX,
    Membership.GetNodeX.
  rewrite Hnew. rewrite bool_decide_eq_false_2 by done. split.
  - intros Hfree. rewrite Hfree. cbn. rewrite !lookup_insert_eq. cbn.
    rewrite !delete_insert_id by done. rewrite Hfree.
    repeat split; try done.
    + by destruct c.
    + apply concat_blocked.
    + rewrite fmap_app, concat_app. cbn. rewrite app_nil_r.
      apply concat_unblocked.
  - intros n0 Hn0. by rewrite Hn0.
Qed.

Lemma filter_closes_stops (l : list (string * node)) :
  List.filter closes ((fun kn : string * node => EvStopNode kn.1) <$> l) = [].
Proof. induction l as [| x l IH]; [done | exact IH]. Qed.

(** X24: the first Shutdown does all the work and the later ones none: over
    any number of calls the shutdown channel is closed once, every node
    that was running is asked to stop, and the registry is empty
    afterwards. *)
Theorem Shutdown_once (k : nat) (c : lifecycle node) :
  shutdown node c = false ->
  (ShutdownTimes node (S k) c).2 = (Shutdown node c).2
  /\ List.length (List.filter (closes) (ShutdownTimes node (S k) c).2) = 1%nat
  /\ (forall id, EvStopNode id ∈ (ShutdownTimes node (S k) c).2
                 <-> is_Some (running node c !! id))
  /\ shutdown node (ShutdownTimes node (S k) c).1 = true
  /\ running node (ShutdownTimes node (S k) c).1 = ∅.
Proof.
  intros Hrun.
  assert (Hlater : forall j c', shutdown node c' = true ->
            ShutdownTimes node j c' = (c', [])).
  { induction j as [| j IH]; intros c' Hc'; [done |]. cbn.
    unfold Shutdown. rewrite Hc'. by rewrite (IH c' Hc'). }
  set (stops := (fun kn : string * node => EvStopNode kn.1)
                  <$> map_to_list (running node c)).
  assert (Hfirst : Shutdown node c
                   = ({| shutdown := true; running := ∅;
                         hasRaft := hasRaft node c;
                         hasRaftStore := hasRaftStore node c |},
                      [EvCloseShutdownCh] ++ stops ++ shutdownRaft node c)).
  { unfold Shutdown. by rewrite Hrun. }
  assert (Hall : ShutdownTimes node (S k) c = Shutdown node c).
  { cbn [ShutdownTimes]. rewrite Hfirst. rewrite Hlater by done.
    by rewrite app_nil_r. }
  rewrite Hall, Hfirst. cbn [fst snd].
  split; [done |]. split; [| split; [| done]].
  - cbn. f_equal. rewrite List.filter_app, length_app.
    subst stops. rewrite filter_closes_stops. unfold shutdownRaft.
    by destruct (hasRaft node c), (hasRaftStore node c).
  - intros id. cbn. rewrite elem_of_cons, elem_of_app. subst stops.
    rewrite list_elem_of_fmap. split.
    + intros [Hclose | [[[k' n'] [[= ->] Hin]] | Hraft]]; [done | |].
      * apply elem_of_map_to_list in Hin. by eexists.
      * exfalso. unfold shutdownRaft in Hraft.
        destruct (hasRaft node c), (hasRaftStore node c); cbn in Hraft;
          rewrite ?elem_of_cons, ?elem_of_nil in Hraft;
          repeat (destruct Hraft as [Hraft | Hraft]; [discriminate Hraft |]);
          exact Hraft.
    + intros [n' Hn']. right. left. exists (id, n'). split; [done |].
      by apply elem_of_map_to_list.
Qed.

End Registry.

Section Leader.
Variable SplitHostPort : string -> string * string.
Variable Atoi : string -> Z + error.
Variable Itoa : Z -> string.
Variable JoinHostPort : string -> string -> string.

Local Abbreviation observe := (Membership.observe SplitHostPort Atoi Itoa JoinHostPort).
Local Abbreviation observeAll :=
  (Membership.observeAll SplitHostPort Atoi Itoa JoinHostPort).

Lemma SetLeader_Address (address : string) (f : forwarder) :
  Address (SetLeader address f) = address /\ fwd_id (SetLeader address f) = fwd_id f.
Proof. unfold SetLeader. by case_bool_decide. Qed.

Lemma observe_agree (own : string) (obs : Observation) (v : leaderView) :
  (isLeaderObservation obs = true \/ agree v) -> agree (observe own obs v).
Proof.
  unfold agree, HasLeader. destruct obs; cbn; intros [Hobs | Hv]; try done.
  - by destruct (SetLeader_Address
                  (if negb (String.length leaderAddr =? 0)%nat
                   then (APIAddr SplitHostPort Atoi Itoa JoinHostPort own leaderAddr).1
                   else leaderAddr) (fwd v)) as [-> _].
  - by destruct (SetLeader_Address
                  (if negb (String.length leaderAddr =? 0)%nat
                   then (APIAddr SplitHostPort Atoi Itoa JoinHostPort own leaderAddr).1
                   else leaderAddr) (fwd v)) as [-> _].
Qed.

(** X25: once a leader observation has been processed, the leader flag of
    the coordinator and the forwarder agree, whatever observations follow:
    the flag is set exactly when the forwarder has a leader address.  An
    announced leader whose address has no port that parses counts as no
    leader. *)
Theorem observations_agree (own : string) (obss : list Observation) (v : leaderView) :
  (existsb isLeaderObservation obss = true \/ agree v) ->
  agree (observeAll own obss v)
  /\ fwd_id (fwd (observeAll own obss v)) = fwd_id (fwd v)
  /\ (forall leaderAddr err,
        leaderAddr <> "" ->
        Atoi (SplitHostPort leaderAddr).2 = inr err ->
        hasRaftLeader (observe own (LeaderObservation leaderAddr) v) = false).
Proof.
  intros Hstart. split; [| split].
  - unfold Membership.observeAll. revert v Hstart.
    induction obss as [| obs obss IH]; intros v Hstart; cbn in *.
    + by destruct Hstart.
    + apply IH. destruct Hstart as [Hex | Hv].
      * apply orb_true_iff in Hex as [Hobs | Hex]; [| by left].
        right. apply observe_agree. by left.
      * right. apply observe_agree. by right.
  - unfold Membership.observeAll. clear Hstart. revert v.
    induction obss as [| obs obss IH]; intros v; cbn; [done |].
    rewrite IH. destruct obs; cbn; try done.
    by destruct (SetLeader_Address
                  (if negb (String.length leaderAddr =? 0)%nat
                   then (APIAddr SplitHostPort Atoi Itoa JoinHostPort own leaderAddr).1
                   else leaderAddr) (fwd v)) as [_ ->].
  - intros leaderAddr err Hne Herr. cbn.
    destruct leaderAddr as [| a rest]; [done |]. cbn.
    unfold APIAddr. cbn.
    destruct (SplitHostPort (String a rest)) as [host port]. cbn in Herr.
    by rewrite Herr.
Qed.

End Leader.

Section Handler.
Context `{App}.
Variable ErrDegraded : error.
Variables env env2 : Env.
Variable Enforce : string -> string -> string -> string -> bool.
Variable User_Superuser : identity_User -> bool.
Variable Policy_Domain : access_Policy -> string.

Local Abbreviation handleAddIdentity :=
  (Membership.handleAddIdentity ErrDegraded env env2 Enforce User_Superuser
     Policy_Domain).

(** X26: the handler for new identities reaches the cluster only for a
    request that binds, whose caller may write the identity in the domain of
    the request and in the domain of every policy sent along, and that does
    not make a superuser unless the caller is one, and then only when the
    cluster is not degraded and the identity is valid; it answers OK only
    when, besides, the cluster is not degraded when the policies are
    set. *)
Theorem handleAddIdentity_authorized (ctxuser : string) (superuser : bool)
    (domain : string) (body : option (identity_User * list access_Policy)) :
  let r := handleAddIdentity ctxuser superuser domain body in
  (r.2 <> [] \/ r.1 = StatusOK) ->
  exists iamuser iampolicies,
    body = Some (iamuser, iampolicies)
    /\ Enforce ctxuser domain ("iam:" +:+ User_Name iamuser) "write" = true
    /\ Forall (fun p =>
         Enforce ctxuser (Policy_Domain p) ("iam:" +:+ User_Name iamuser) "write" = true)
         iampolicies
    /\ (User_Superuser iamuser = true -> superuser = true)
    /\ IsDegraded env = false
    /\ Validate env iamuser = None
    /\ (r.1 = StatusOK -> IsDegraded env2 = false).
Proof.
  unfold Membership.handleAddIdentity. destruct body as [[iamuser iampolicies] |].
  2: { cbn. intros [? | ?]; done. }
  cbn zeta.
  destruct (Enforce ctxuser domain ("iam:" +:+ User_Name iamuser) "write") eqn:Hown.
  2: { cbn. intros [? | ?]; done. }
  cbn [negb].
  destruct (existsb _ iampolicies) eqn:Hpol.
  { cbn. intros [? | ?]; done. }
  destruct (negb superuser && User_Superuser iamuser) eqn:Hsuper.
  { cbn. intros [? | ?]; done. }
  intros Hreached. exists iamuser, iampolicies.
  split; [done |]. split; [done |]. split; [| split].
  - apply Forall_forall. intros p Hp.
    destruct (Enforce ctxuser (Policy_Domain p) _ "write") eqn:Hp'; [done |].
    assert (existsb
              (fun p => negb (Enforce ctxuser (Policy_Domain p)
                                ("iam:" +:+ User_Name iamuser) "write"))
              iampolicies = true); [| congruence].
    apply existsb_exists. exists p. split; [by apply list_elem_of_In |].
    by rewrite Hp'.
  - intros Hs. rewrite Hs in Hsuper. by destruct superuser.
  - revert Hreached. unfold AddIdentity, SetPolicies.
    destruct (IsDegraded env); [cbn; intros [? | ?]; done |].
    destruct (Validate env iamuser); [cbn; intros [? | ?]; done |].
    intros _. split; [done |]. split; [done |].
    destruct (IsDegraded env2); [| done].
    repeat case_match; simplify_eq; cbn; done.
Qed.

End Handler.
End RegistrySpec.

(** * Properties of the peer client *)
Module ProxyNodeSpec.
Import GoTime Proxy ProxyNode.

Lemma append_nil (s : string) : "" +:+ s = s.
Proof. reflexivity. Qed.

Lemma append_cons (a : Ascii.ascii) (s t : string) :
  String a s +:+ t = String a (s +:+ t).
Proof. reflexivity. Qed.

Lemma append_nil_r (s : string) : s +:+ "" = s.
Proof. induction s as [| a s IH]; [done |]. rewrite append_cons. by rewrite IH. Qed.

Lemma Cut_found (s : string) (sep : Ascii.ascii) :
  (Cut s sep).1.1 +:+ (if (Cut s sep).2 then String sep (Cut s sep).1.2 else "") = s
  /\ (sep ∉ list_ascii_of_string (Cut s sep).1.1)
  /\ ((Cut s sep).2 = false -> (Cut s sep).1.2 = "").
Proof.
  induction s as [| a s IH]; cbn.
  - split; [done |]. split; [apply not_elem_of_nil | done].
  - destruct (Ascii.eqb_spec a sep) as [-> | Hne]; cbn.
    + split; [done |]. split; [apply not_elem_of_nil | done].
    + destruct (Cut s sep) as [[before after] found]. cbn in *.
      destruct IH as (Hs & Hnot & Hafter). split; [by rewrite <- Hs |].
      split; [| done].
      rewrite not_elem_of_cons. split; [congruence | done].
Qed.

Lemma Cut_join (before after : string) (sep : Ascii.ascii) :
  sep ∉ list_ascii_of_string before ->
  Cut (before +:+ String sep after) sep = (before, after, true).
Proof.
  induction before as [| a before IH]; intros Hnot.
  - rewrite append_nil. cbn. by rewrite Ascii.eqb_refl.
  - cbn in Hnot. apply not_elem_of_cons in Hnot as [Hne Hnot].
    rewrite append_cons. cbn.
    destruct (Ascii.eqb_spec a sep) as [-> | _]; [done |].
    by rewrite (IH Hnot).
Qed.

(** Cut splits a string at the first separator and nowhere else: the
    text before has no separator; with a separator found, text before,
    separator and text after make up the string; without, the text before
    is the whole string and the text after is empty.  And a string made of
    a text without separator, the separator and any text is cut back into
    the two. *)
Theorem Cut_splits_at_first (sep : Ascii.ascii) :
  (forall s before after found,
     Cut s sep = (before, after, found) ->
     (sep ∉ list_ascii_of_string before)
     /\ (found = true -> s = before +:+ String sep after)
     /\ (found = false -> before = s /\ after = ""))
  /\ (forall before after,
        sep ∉ list_ascii_of_string before ->
        Cut (before +:+ String sep after) sep = (before, after, true)).
Proof.
  split; [| intros; by apply Cut_join].
  intros s before after found Hcut.
  destruct (Cut_found s sep) as (Hs & Hnot & Hafter). rewrite Hcut in *. cbn in *.
  split; [done |]. split.
  - intros ->. by rewrite <- Hs.
  - intros ->. specialize (Hafter eq_refl). subst after.
    split; [| done]. rewrite <- Hs. by rewrite append_nil_r.
Qed.

Section URLs.
Variable filepath_Join : string -> string -> string.
Variable QueryEscape : string -> string.

Local Abbreviation GetURL := (ProxyNode.GetURL filepath_Join QueryEscape).

Lemma Cut_prefixed (prefix name : string) :
  prefix ∈ filePrefixes ->
  Cut (prefixed prefix name) colon = (prefix, name, true).
Proof.
  intros Hin. unfold prefixed. apply (Cut_join prefix name colon).
  unfold filePrefixes in Hin. rewrite !elem_of_cons, elem_of_nil in Hin.
  destruct Hin as [-> | [-> | [-> | [-> | []]]]]; cbn;
    rewrite !not_elem_of_cons; repeat split; try discriminate; apply not_elem_of_nil.
Qed.

(** X27: GetURL builds a URL for every name that the files task lists,
    whatever the name: the prefixes mem, disk, rtmp and srt are the ones it
    knows, and the text after the first colon is taken as it is (for disk,
    appended to the address of the node).  A path without colon is refused
    for having no prefix, and the only other error is an unknown prefix;
    with an error the URL is empty. *)
Theorem GetURL_prefixes (n : endpoints) :
  (forall prefix name, prefix ∈ filePrefixes ->
     (GetURL n (prefixed prefix name)).2 = None)
  /\ (forall name, GetURL n (prefixed "disk" name) = (address n +:+ name, None))
  /\ (forall path, (Cut path colon).2 = false ->
        GetURL n path = ("", Some "no prefix provided"))
  /\ (forall path err, (GetURL n path).2 = Some err ->
        (GetURL n path).1 = ""
        /\ (err = "no prefix provided"
            \/ err = "unknown prefix" /\ (Cut path colon).1.1 ∉ filePrefixes)).
Proof.
  split; [| split; [| split]].
  - intros prefix name Hin. unfold ProxyNode.GetURL.
    rewrite (Cut_prefixed prefix name Hin). cbn.
    unfold filePrefixes in Hin. rewrite !elem_of_cons, elem_of_nil in Hin.
    destruct Hin as [-> | [-> | [-> | [-> | []]]]]; done.
  - intros name. unfold ProxyNode.GetURL.
    rewrite (Cut_prefixed "disk" name); [done |].
    unfold filePrefixes. rewrite !elem_of_cons. tauto.
  - intros path Hnot. unfold ProxyNode.GetURL.
    destruct (Cut path colon) as [[prefix rest] found]. cbn in Hnot. by subst found.
  - intros path err. unfold ProxyNode.GetURL.
    destruct (Cut path colon) as [[prefix rest] found]. cbn.
    destruct found; cbn; [| intros [= <-]; split; [done | by left]].
    repeat case_bool_decide; cbn; try done.
    intros [= <-]. split; [done |]. right. split; [done |].
    unfold filePrefixes. rewrite !elem_of_cons, elem_of_nil. tauto.
Qed.

(** GetFile asks the peer only for paths with the prefix mem or disk:
    a name listed under rtmp or srt is refused as an unknown prefix when
    the node is connected, and every prefixed name is refused as not
    connected when it is not. *)
Theorem GetFile_prefixes {Data : Type} (peer : Peer Data) (name : string) :
  GetFile (Some peer) (prefixed "mem" name) = MemFSGetFile Data peer name
  /\ GetFile (Some peer) (prefixed "disk" name) = DiskFSGetFile Data peer name
  /\ GetFile (Some peer) (prefixed "rtmp" name) = inr "unknown prefix"
  /\ GetFile (Some peer) (prefixed "srt" name) = inr "unknown prefix"
  /\ (forall prefix, prefix ∈ filePrefixes ->
        GetFile (None : option (Peer Data)) (prefixed prefix name) = inr "not connected").
Proof.
  assert (Hmem : "mem" ∈ filePrefixes)
    by (unfold filePrefixes; rewrite !elem_of_cons; tauto).
  assert (Hdisk : "disk" ∈ filePrefixes)
    by (unfold filePrefixes; rewrite !elem_of_cons; tauto).
  assert (Hrtmp : "rtmp" ∈ filePrefixes)
    by (unfold filePrefixes; rewrite !elem_of_cons; tauto).
  assert (Hsrt : "srt" ∈ filePrefixes)
    by (unfold filePrefixes; rewrite !elem_of_cons; tauto).
  unfold GetFile.
  rewrite (Cut_prefixed "mem" name Hmem), (Cut_prefixed "disk" name Hdisk),
    (Cut_prefixed "rtmp" name Hrtmp), (Cut_prefixed "srt" name Hsrt).
  repeat split; try done.
  intros prefix Hin. by rewrite (Cut_prefixed prefix name Hin).
Qed.

End URLs.

Section Configs.
Variables UInt Float : Type.

Local Abbreviation toConfig := (ProxyNode.toConfig UInt Float).
Local Abbreviation toProcessConfig := (ProxyNode.toProcessConfig UInt Float).
Local Abbreviation copyInput := (ProxyNode.copyInput UInt).
Local Abbreviation copyOutput := (ProxyNode.copyOutput UInt).

Lemma copyOutput_id (d : ConfigIO UInt) : copyOutput d = d.
Proof.
  destruct d as [i a o cleanup]. unfold ProxyNode.copyOutput. cbn. f_equal.
  induction cleanup as [| [] cleanup IH]; [done |]. cbn. by rewrite IH.
Qed.

Lemma copyOutputs_id (l : list (ConfigIO UInt)) : copyOutput <$> l = l.
Proof. induction l as [| d l IH]; [done |]. cbn. by rewrite copyOutput_id, IH. Qed.

Lemma copyInput_idemp (l : list (ConfigIO UInt)) :
  copyInput <$> (copyInput <$> l) = copyInput <$> l.
Proof. induction l as [| d l IH]; [done |]. cbn. by rewrite IH. Qed.

Lemma copyInput_clean (l : list (ConfigIO UInt)) :
  Forall (fun d => io_Cleanup UInt d = []) l -> copyInput <$> l = l.
Proof.
  induction 1 as [| [di da do dc] l Hd _ IH]; [done |]. cbn in *.
  rewrite IH. by subst dc.
Qed.

(** X28: a config sent to a peer with ProcessAdd and read back the way
    ProcessList reads it is the config itself but for the cleanup rules of
    its inputs, which are not sent: id, reference, options, the reconnect
    and stale settings, the limits and the outputs with their cleanup rules
    come back unchanged.  So a config whose inputs have no cleanup rules
    makes the round trip unchanged. *)
Theorem config_round_trip (config : Config UInt Float) :
  toConfig (toProcessConfig config) = withoutInputCleanup UInt Float config
  /\ (Forall (fun d => io_Cleanup UInt d = []) (cfg_Input UInt Float config) ->
        toConfig (toProcessConfig config) = config).
Proof.
  assert (Hround : toConfig (toProcessConfig config)
                   = withoutInputCleanup UInt Float config).
  { unfold ProxyNode.toConfig, ProxyNode.toProcessConfig, withoutInputCleanup. cbn.
    by rewrite copyInput_idemp, !copyOutputs_id. }
  split; [done |]. intros Hclean. rewrite Hround.
  destruct config as [i r input]. unfold withoutInputCleanup. cbn in *.
  by rewrite (copyInput_clean input Hclean).
Qed.

End Configs.

Section Metrics.

Lemma readMetric_None (x : MetricsResponseMetric) (a : sample) :
  readMetric x a = None <-> Name x ∈ sampledMetrics /\ Values x = [].
Proof.
  unfold readMetric, sampledMetrics. rewrite !elem_of_cons, elem_of_nil.
  repeat case_bool_decide; destruct (Values x); split; try done;
    try tauto; intros [Hin ?]; try done; tauto.
Qed.

(** X29: a tick of the metrics task panics exactly when the response has a
    metric named cpu_idle, cpu_ncpu, mem_total or mem_free without any
    value; metrics with other names are skipped, with or without values. *)
Theorem metricsTick_panics (now : Time) (metrics : list MetricsResponseMetric)
    (err : option error) (n : node) :
  metricsTick now metrics err n = None <->
  Exists (fun x => Name x ∈ sampledMetrics /\ Values x = []) metrics.
Proof.
  unfold metricsTick.
  assert (Hread : forall a, readMetrics metrics a = None <->
            Exists (fun x => Name x ∈ sampledMetrics /\ Values x = []) metrics).
  { induction metrics as [| x rest IH]; intros a; cbn.
    - split; [done |]. by intros ?%Exists_nil.
    - rewrite Exists_cons. destruct (readMetric x a) as [a' |] eqn:Hx.
      + rewrite IH. split; [tauto |]. intros [Hbad | ?]; [| done].
        apply (readMetric_None x a) in Hbad. congruence.
      + split; [| done]. intros _. left. by apply (readMetric_None x a). }
  destruct (readMetrics metrics noSample) eqn:Hr.
  - split; [done |]. intros Hex. apply (Hread noSample) in Hex. congruence.
  - split; [| done]. intros _. by apply (Hread noSample).
Qed.

Lemma lor_range (a b n : Z) :
  0 <= n -> 0 <= a < 2 ^ n -> 0 <= b < 2 ^ n -> 0 <= Z.lor a b < 2 ^ n.
Proof.
  intros Hn Ha Hb.
  assert (Hnonneg : 0 <= Z.lor a b) by (apply Z.lor_nonneg; lia).
  split; [done |].
  destruct (Z.eq_dec (Z.lor a b) 0) as [-> | Hne]; [lia |].
  apply Z.log2_lt_pow2; [lia |].
  rewrite Z.log2_lor by lia.
  destruct (Z.eq_dec a 0) as [-> | Ha0]; destruct (Z.eq_dec b 0) as [-> | Hb0].
  - exfalso. apply Hne. reflexivity.
  - rewrite Z.max_r by apply Z.log2_nonneg. apply Z.log2_lt_pow2; lia.
  - rewrite Z.max_l by apply Z.log2_nonneg. apply Z.log2_lt_pow2; lia.
  - apply Z.max_lub_lt; apply Z.log2_lt_pow2; lia.
Qed.

Lemma uint64_range (f : float) : 0 <= uint64 f < 2 ^ 64.
Proof.
  unfold uint64. destruct (_ <? _)%float.
  - apply Z.mod_pos_bound. lia.
  - apply lor_range; [lia | apply Z.mod_pos_bound; lia | lia].
Qed.

(** The conversion on floats inside and outside the range of uint64. *)
Example uint64_examples :
  uint64 8192 = 8192
  /\ uint64 1.5 = 1
  /\ uint64 (-0.5) = 0
  /\ uint64 0x1p63 = 2 ^ 63
  /\ uint64 0x1.fffffffffffffp63 = 2 ^ 64 - 2 ^ 11
  /\ uint64 (-1) = 2 ^ 64 - 1
  /\ uint64 0x1p64 = 2 ^ 63
  /\ uint64 0x1p100 = 2 ^ 63
  /\ uint64 (-0x1p100) = 2 ^ 63
  /\ uint64 nan = 2 ^ 63
  /\ uint64 infinity = 2 ^ 63
  /\ uint64 neg_infinity = 2 ^ 63.
Proof. repeat split; vm_compute; reflexivity. Qed.

(** The loop leaves in each local the value reported under its name, and
    the value the local had when no metric of the name came. *)
Lemma readMetrics_reported (metrics : list MetricsResponseMetric) (a a' : sample) :
  readMetrics metrics a = Some a' ->
  mem_total a' = from_option uint64 (mem_total a) (reported "mem_total" metrics)
  /\ mem_free a' = from_option uint64 (mem_free a) (reported "mem_free" metrics).
Proof.
  revert a. induction metrics as [| x rest IH]; intros a; cbn.
  - by intros [= <-].
  - destruct (readMetric x a) as [a1 |] eqn:Hx; [| done].
    intros Hrest. destruct (IH a1 Hrest) as [Htotal Hfree].
    rewrite Htotal, Hfree. clear IH Hrest Htotal Hfree.
    unfold readMetric in Hx.
    split.
    + destruct (reported "mem_total" rest); [done |]. cbn.
      repeat case_bool_decide; destruct (Values x); simplify_eq; cbn;
        first [done | congruence].
    + destruct (reported "mem_free" rest); [done |]. cbn.
      repeat case_bool_decide; destruct (Values x); simplify_eq; cbn;
        first [done | congruence].
Qed.

(** X30: a tick that does not panic stores as total memory what the
    response reports as mem_total, converted to uint64, and zero when it
    reports none.  The used memory is zero when that total is zero,
    whatever is reported free; it is total minus free when no more is
    reported free than in total; and it wraps around, to total minus free
    plus 2^64, when more is reported free than in total.  The tick leaves
    the connection state and the latency of the node alone and sets the
    last contact to the time of the tick, also after a failed query. *)
Theorem metricsTick_memory (now : Time) (metrics : list MetricsResponseMetric)
    (err : option error) (n n' : node) :
  metricsTick now metrics err n = Some n' ->
  let total := from_option uint64 0 (reported "mem_total" metrics) in
  let free := from_option uint64 0 (reported "mem_free" metrics) in
  memTotal (node_resources n') = total
  /\ (total = 0 -> mem (node_resources n') = 0)
  /\ (total <> 0 -> free <= total -> mem (node_resources n') = total - free)
  /\ (total <> 0 -> total < free -> mem (node_resources n') = total - free + 2 ^ 64)
  /\ state n' = state n
  /\ latency n' = latency n
  /\ lastContact n' = now.
Proof.
  unfold metricsTick. destruct (readMetrics metrics noSample) as [a |] eqn:Hr; [| done].
  intros [= <-].
  set (total := from_option uint64 0 (reported "mem_total" metrics)).
  set (free := from_option uint64 0 (reported "mem_free" metrics)).
  destruct (readMetrics_reported metrics noSample a Hr) as [Htotal Hfree].
  change (mem_total noSample) with 0 in Htotal. fold total in Htotal.
  change (mem_free noSample) with 0 in Hfree. fold free in Hfree.
  assert (Hrt : 0 <= total < 2 ^ 64).
  { subst total. destruct (reported "mem_total" metrics); cbn;
      [apply uint64_range | lia]. }
  assert (Hrf : 0 <= free < 2 ^ 64).
  { subst free. destruct (reported "mem_free" metrics); cbn;
      [apply uint64_range | lia]. }
  unfold storeSample. cbn. rewrite Htotal, Hfree.
  case_bool_decide as Hzero.
  - repeat split; try done; try (by destruct err); intros; lia.
  - split; [done |]. split; [done |]. split; [| split].
    + intros _ Hle. apply Z.mod_small. lia.
    + intros _ Hlt.
      rewrite <- (Z.mod_add (total - free) 1 (2 ^ 64)) by lia.
      apply Z.mod_small. lia.
    + repeat split; by destruct err.
Qed.

End Metrics.
End ProxyNodeSpec.

(** * The added properties on concrete data *)
Module StoreMoreExamples.
Import GoTime Store StoreQueries StoreOps StoreSpec StoreMore StoreLaws.
Import Fixture CommandFixture.

#[local] Existing Instance Fixture.app.
#[local] Existing Instance Fixture.codec.

(** Adding p1 to a store that holds it is answered with an error: the store
    is the same and the callback did not run. *)
Lemma Apply_error_leaves_store_witness :
  st (Apply clock (entry "addProcess") twoProcesses) = twoProcesses
  /\ notified (Apply clock (entry "addProcess") twoProcesses) = None.
Proof.
  apply (Apply_error_leaves_store clock (entry "addProcess") twoProcesses
           (errProcessExists "p1@")).
  reflexivity.
Defined.

(** The new store is keyed, and so is the store after p1 was added. *)
Lemma Apply_keeps_keys_witness :
  keyed (st (Apply clock (entry "addProcess") NewStore))
  /\ usersKeyed (st (Apply clock (entry "addProcess") NewStore)).
Proof.
  apply (Apply_keeps_keys clock (entry "addProcess") NewStore).
  - intros k p Hk. cbn in Hk. rewrite lookup_empty in Hk. discriminate Hk.
  - intros k u Hk. cbn in Hk. rewrite lookup_empty in Hk. discriminate Hk.
Defined.

(** p3 is added to the store of p1 and p2 and removed again. *)
Lemma addProcess_removeProcess_witness :
  (addProcess 99 (addP3 "") twoProcesses).1 = None
  /\ removeProcess removeP3
       (addProcess 99 (addP3 "") twoProcesses).2
     = (None, twoProcesses).
Proof.
  apply (addProcess_removeProcess 99 (addP3 "")
           removeP3 twoProcesses).
  - reflexivity.
  - reflexivity.
Defined.

(** p3 is added at 99 and cannot be added again at 100, also with another
    reference. *)
Lemma addProcess_once_witness :
  GetProcess (fun c => c) ("p3", "")
    (addProcess 99 (addP3 "") twoProcesses).2
  = inl {| CreatedAt := 99; UpdatedAt := 99;
           Config := mkConfig "p3" ""; Metadata := Some ∅ |}
  /\ addProcess 100 (addP3 "v2")
       (addProcess 99 (addP3 "") twoProcesses).2
     = (Some (errProcessExists "p3@"),
        (addProcess 99 (addP3 "") twoProcesses).2).
Proof.
  apply (addProcess_once (fun c => c) 99 100
           (addP3 "")
           (addP3 "v2") twoProcesses).
  - reflexivity.
  - reflexivity.
Defined.

(** The key note of p1 is set; its key owner and p2 are as before. *)
Lemma setProcessMetadata_sets_key_witness :
  (setProcessMetadata 99 noteP1 twoProcesses).1 = None
  /\ (exists p' m,
        store_Process (setProcessMetadata 99 noteP1 twoProcesses).2 !! "p1@" = Some p'
        /\ Metadata p' = Some m
        /\ m !! "note" = Some "checked"
        /\ (forall k, k <> "note" ->
              m !! k = default ∅ (Metadata (stored "p1" "" 10)) !! k)
        /\ CreatedAt p' = 10
        /\ Config p' = mkConfig "p1" ""
        /\ UpdatedAt p' = 99)
  /\ (forall k, k <> "p1@" ->
        store_Process (setProcessMetadata 99 noteP1 twoProcesses).2 !! k
        = store_Process twoProcesses !! k).
Proof.
  apply (setProcessMetadata_sets_key 99 noteP1 twoProcesses (stored "p1" "" 10)).
  reflexivity.
Defined.

(** bob is added at 99 and cannot be added again. *)
Lemma addIdentity_once_witness :
  ListIdentity "bob" (addIdentity 99 addBob twoProcesses).2
  = inl (99, "bob")
  /\ addIdentity 100 addBob
       (addIdentity 99 addBob twoProcesses).2
     = (Some (errIdentityExists "bob"),
        (addIdentity 99 addBob twoProcesses).2).
Proof.
  apply (addIdentity_once 99 100 addBob
           addBob twoProcesses).
  - reflexivity.
  - reflexivity.
Defined.

(** The snapshot of the store of p1 and p2 restored into a new store. *)
Lemma Restore_Snapshot_empty_witness :
  canonicalJSON (Restore (Snapshot twoProcesses) NewStore)
  = normalizeDocument (canonicalJSON twoProcesses).
Proof.
  apply (Restore_Snapshot_empty twoProcesses NewStore).
  - reflexivity.
  - reflexivity.
  - reflexivity.
Defined.

End StoreMoreExamples.

Module ClusterMoreExamples.
Import GoTime Store Cluster ClusterSpec Routing Membership SentinelNotions.
Import ClusterMore IndexMore MembershipSpec RegistrySpec.
Import Fixture ClusterFixture MembershipFixture.

#[local] Existing Instance Fixture.app.

(** The four mutations on the degraded leader. *)
Lemma identity_mutations_refuse_degraded_witness :
  AddIdentity ErrDegraded degradedLeader "" "alice" = (Some ErrDegraded, [])
  /\ UpdateIdentity ErrDegraded degradedLeader "" "alice" "alice" = (Some ErrDegraded, [])
  /\ SetPolicies ErrDegraded degradedLeader "" "alice" ["p"] = (Some ErrDegraded, [])
  /\ RemoveIdentity ErrDegraded degradedLeader "" "alice" = (Some ErrDegraded, []).
Proof.
  apply (identity_mutations_refuse_degraded ErrDegraded degradedLeader "" "alice"
           "alice" ["p"]).
  reflexivity.
Defined.

(** The follower A asks to leave, with fuel for the rounds of five
    seconds. *)
Lemma Leave_follower_witness :
  exists polls,
    Leave follower 102 self "" "A"
    = Some (None, EvForward (FwdLeave "" "A") :: polls)
    /\ Forall (fun e => mutating e = false) polls.
Proof.
  apply (Leave_follower follower 102 self "" "A").
  - reflexivity.
  - intros k. unfold follower, Now, Second, Millisecond. lia.
  - vm_compute. lia.
Defined.

(** The leader A removes B. *)
Lemma Leave_other_node_witness :
  exists evs,
    Leave leaderOfTwo 0 self "" "B"
    = Some (None, [EvGetConfiguration] ++ evs ++ [EvRemoveServer "B"])
    /\ evs = (RemoveNode leaderOfTwo 1 "B").2
    /\ Forall (fun e =>
         e = EvRaftApply {| cmd_Operation := opRemoveNode;
                            cmd_Data := DataRemoveNode "B" |}) evs.
Proof.
  apply (Leave_other_node leaderOfTwo 0 self "" "B" [serverA; serverB]).
  - reflexivity.
  - reflexivity.
  - differ.
  - differ.
Defined.

(** B reports mem:/a at 100: a nanosecond later the path resolves. *)
Lemma GetURL_after_update_witness :
  GetURL getURL 101 "mem:/a" (update (connected ["mem:/a"] 100) emptyIndex)
  = ("http://b:8080/mem:/a", None).
Proof.
  destruct (GetURL_after_update getURL 101 "mem:/a" "http://b:8080/mem:/a"
              (connected ["mem:/a"] 100) emptyIndex "http://b:8080") as [Hfresh _].
  - reflexivity.
  - constructor.
  - reflexivity.
  - reflexivity.
  - apply Hfresh. vm_compute. discriminate.
Defined.

(** Two ticks with a contact five milliseconds old. *)
Lemma sentinel_quiet_witness :
  (sentinelRun parseDuration
     [ (1 * Second, lastContact "5ms"); (2 * Second, lastContact "5ms") ]
     (sentinelStart 0)).2 = []
  /\ isEmergencyLeader
       (sentinelRun parseDuration
          [ (1 * Second, lastContact "5ms"); (2 * Second, lastContact "5ms") ]
          (sentinelStart 0)).1 = false.
Proof.
  apply (sentinel_quiet parseDuration
           [ (1 * Second, lastContact "5ms"); (2 * Second, lastContact "5ms") ]
           (sentinelStart 0)).
  - reflexivity.
  - repeat constructor; try differ.
    all: exists (5 * Millisecond); split; [reflexivity | vm_compute; discriminate].
Defined.

(** B, a member under its address, joins again. *)
Lemma Join_existing_member_witness :
  exists removes,
    (Join leaderOfTwo forwardJoin addVoter "" "B" "127.0.0.1:7010" "http://b" "u" "p").2
    = EvBase EvGetConfiguration :: removes
    /\ Forall (removal "B" "127.0.0.1:7010" [serverA; serverB]) removes
    /\ Forall (fun e => admits e = false)
         (Join leaderOfTwo forwardJoin addVoter "" "B" "127.0.0.1:7010" "http://b" "u" "p").2
    /\ ((Join leaderOfTwo forwardJoin addVoter "" "B" "127.0.0.1:7010" "http://b" "u" "p").1
        = None
        \/ exists sid e,
             raft_RemoveServer leaderOfTwo sid = Some e
             /\ (Join leaderOfTwo forwardJoin addVoter "" "B" "127.0.0.1:7010"
                   "http://b" "u" "p").1
                = Some (errRemovingExisting "B" "127.0.0.1:7010" e)).
Proof.
  apply (Join_existing_member leaderOfTwo forwardJoin addVoter
           "" "B" "127.0.0.1:7010" "http://b" "u" "p" [serverA; serverB] serverB).
  - reflexivity.
  - reflexivity.
  - do 2 constructor.
  - reflexivity.
  - reflexivity.
Defined.

(** C, whose id and address are new, joins. *)
Lemma Join_new_member_witness :
  (Join leaderOfTwo forwardJoin addVoter "" "C" "127.0.0.1:7020" "http://c" "u" "p").1
  = addVoter "C" "127.0.0.1:7020"
  /\ exists evs,
       (Join leaderOfTwo forwardJoin addVoter "" "C" "127.0.0.1:7020" "http://c" "u" "p").2
       = [EvBase EvGetConfiguration; EvAddVoter "C" "127.0.0.1:7020"] ++ (EvBase <$> evs)
       /\ (evs = [] \/
           addVoter "C" "127.0.0.1:7020" = None
           /\ evs = [EvRaftApply
                       {| cmd_Operation := opAddNode;
                          cmd_Data := DataAddNode "C" "http://c" "u" "p" |}]).
Proof.
  apply (Join_new_member leaderOfTwo forwardJoin addVoter
           "" "C" "127.0.0.1:7020" "http://c" "u" "p" [serverA; serverB]).
  - reflexivity.
  - reflexivity.
  - repeat constructor; differ.
Defined.

(** The peer at 10.0.0.3 is added to the registry of B and removed
    again. *)
Lemma AddNodeX_RemoveNodeX_witness :
  AddNodeX peer peer_ID peer_IPs newPeer "A" "10.0.0.3" "u" "p" registry
  = (("node-10.0.0.3", None),
     setNodes peer registry (<["node-10.0.0.3" := peerC]> (nodes registry)),
     [EvAddBlock peer "10.0.0.3"; EvAddBlock peer "::1"])
  /\ (RemoveNodeX peer peer_IPs "node-10.0.0.3"
        (AddNodeX peer peer_ID peer_IPs newPeer "A" "10.0.0.3" "u" "p" registry).1.2).1.2
     = registry.
Proof.
  split; [reflexivity |].
  destruct (AddNodeX_RemoveNodeX peer peer_ID peer_IPs newPeer "A" "10.0.0.3" "u" "p"
              registry peerC) as [Hfree _].
  - reflexivity.
  - differ.
  - specialize (Hfree eq_refl).
    destruct (AddNodeX peer peer_ID peer_IPs newPeer "A" "10.0.0.3" "u" "p" registry)
      as [[r1 c1] evs1].
    cbn [fst snd].
    destruct (RemoveNodeX peer peer_IPs (peer_ID peerC) c1) as [[r2 c2] evs2] eqn:Hremove.
    change (peer_ID peerC) with "node-10.0.0.3" in Hremove. rewrite Hremove.
    cbn [fst snd]. by destruct Hfree as (_ & _ & _ & -> & _).
Defined.

(** Three calls of Shutdown on the running cluster. *)
Lemma Shutdown_once_witness :
  (ShutdownTimes peer 3 up).2 = (Shutdown peer up).2
  /\ List.length (List.filter (closes) (ShutdownTimes peer 3 up).2) = 1%nat
  /\ (forall id, EvStopNode id ∈ (ShutdownTimes peer 3 up).2
                 <-> is_Some (running peer up !! id))
  /\ shutdown peer (ShutdownTimes peer 3 up).1 = true
  /\ running peer (ShutdownTimes peer 3 up).1 = ∅.
Proof.
  apply (Shutdown_once peer 2 up). reflexivity.
Defined.

(** A leader at 127.0.0.1:7000 is announced to a stale view, then a peer
    is observed. *)
Lemma observations_agree_witness :
  agree (observeAll splitHostPort atoi itoa joinHostPort "127.0.0.1:7000"
           [LeaderObservation "127.0.0.1:7000"; PeerObservation] staleView)
  /\ Address (fwd (observeAll splitHostPort atoi itoa joinHostPort "127.0.0.1:7000"
                     [LeaderObservation "127.0.0.1:7000"; PeerObservation] staleView))
     = "127.0.0.1:7001".
Proof.
  split; [| reflexivity].
  apply (observations_agree splitHostPort atoi itoa joinHostPort "127.0.0.1:7000"
           [LeaderObservation "127.0.0.1:7000"; PeerObservation] staleView).
  left. reflexivity.
Defined.

(** admin adds bob with one policy on the leader and is answered OK. *)
Lemma handleAddIdentity_authorized_witness :
  exists iamuser iampolicies,
    Some ("bob", ["d1"]) = Some (iamuser, iampolicies)
    /\ enforce "admin" "" ("iam:" +:+ iamuser) "write" = true
    /\ Forall (fun p => enforce "admin" (policyDomain p) ("iam:" +:+ iamuser) "write" = true)
         iampolicies
    /\ (isSuperuser iamuser = true -> false = true)
    /\ IsDegraded leaderOfTwo = false
    /\ Validate leaderOfTwo iamuser = None
    /\ ((handleAddIdentity ErrDegraded leaderOfTwo leaderOfTwo enforce isSuperuser
           policyDomain "admin" false "" (Some ("bob", ["d1"]))).1 = StatusOK ->
        IsDegraded leaderOfTwo = false).
Proof.
  apply (handleAddIdentity_authorized ErrDegraded leaderOfTwo leaderOfTwo enforce
           isSuperuser policyDomain "admin" false "" (Some ("bob", ["d1"]))).
  right. reflexivity.
Defined.

End ClusterMoreExamples.

Module ProxyNodeExamples.
Import GoTime Proxy ProxyNode ProxyNodeSpec ProxyFixture MetricsFixture.

(** A tick at 200 on the sampled node, with a response of 8192 bytes in
    total and 2048 free: 6144 are stored as used. *)
Lemma metricsTick_memory_witness :
  metricsTick 200 response None sampled = Some measured
  /\ memTotal (node_resources measured) = 8192
  /\ mem (node_resources measured) = 8192 - 2048
  /\ state measured = state sampled
  /\ latency measured = latency sampled
  /\ lastContact measured = 200.
Proof.
  assert (Htick : metricsTick 200 response None sampled = Some measured)
    by (vm_compute; reflexivity).
  destruct (metricsTick_memory 200 response None sampled measured Htick)
    as (Htotal & _ & Hused & _ & Hstate & Hlatency & Hcontact).
  split; [exact Htick |]. split; [| split; [| done]].
  - rewrite Htotal. vm_compute. reflexivity.
  - rewrite Hused.
    + vm_compute. reflexivity.
    + vm_compute. discriminate.
    + vm_compute. discriminate.
Defined.

(** A response that reports more free memory than there is in total: the
    used memory stored is just below 2^64. *)
Example metricsTick_wraps :
  exists n',
    metricsTick 200 overfree None sampled = Some n'
    /\ memTotal (node_resources n') = 2048
    /\ mem (node_resources n') = 2 ^ 64 - 6144.
Proof. eexists. split; [vm_compute; reflexivity |]. split; reflexivity. Qed.

End ProxyNodeExamples.

Module StoreRestoreExamples.
Import GoTime Store StoreRestore StoreRestoreSpec Fixture RestoreFixture.

#[local] Existing Instance Fixture.app.

(** The snapshot holds p9 with a nil metadata map, the store p1 and p2.
    After a Restore that returns nil p9 has an empty metadata map, and p1,
    which the snapshot does not have, still has its own.  When the decoder
    fails after p9 was decoded, Restore returns the error and p9 is in the
    store with its nil metadata map. *)
Lemma Restore_no_nil_metadata_witness :
  Metadata (bare "p9" "v2" 5) = None
  /\ (Restore (decodes bareSnapshot) twoProcesses).1 = None
  /\ (exists p,
        store_Process (Restore (decodes bareSnapshot) twoProcesses).2
          !! "p9@" = Some p
        /\ is_Some (Metadata p))
  /\ (exists p,
        store_Process (Restore (decodes bareSnapshot) twoProcesses).2
          !! "p1@" = Some p
        /\ is_Some (Metadata p))
  /\ (Restore truncated twoProcesses).1 = Some "unexpected EOF"
  /\ store_Process (Restore truncated twoProcesses).2 !! "p9@"
     = Some (bare "p9" "v2" 5).
Proof.
  destruct (Restore_no_nil_metadata (decodes bareSnapshot) twoProcesses)
    as (Herr & Hnil & _).
  destruct (Restore_no_nil_metadata truncated twoProcesses) as (Herr' & _ & Hfailed).
  split; [reflexivity |]. split; [exact Herr |]. split; [| split; [| split]].
  - eexists. split; [reflexivity |]. apply (Hnil Herr "p9@"). reflexivity.
  - eexists. split; [reflexivity |]. apply (Hnil Herr "p1@"). reflexivity.
  - exact Herr'.
  - destruct Hfailed as [_ Hkept]; [by eexists |].
    apply Hkept. reflexivity.
Defined.

End StoreRestoreExamples.
